(** * ocralign: the PDF page pipeline of [ocralign/ocr.py]

    A shallow embedding of [write_to_txt], [_page_to_pil_image] and
    [process_pdf], with the properties of the page pipeline proved about
    that embedding.

    Conventions of the embedding.
    - A Python [str] is a [string]; each character stands for one code
      point below 256.
    - A Python [float] is an IEEE binary64 number, a [spec_float] with
      the operations of precision 53 and exponent bound 1024.
    - A call that may raise returns an [Outcome]: a value or the raised
      exception object.
    - The libraries the module calls (PyMuPDF, PIL, the recogniser of
      [ocralign.tess_align], the file system behind [open]) are the fields
      of a [World]; they are deterministic functions of their arguments.
    - What the module changes outside itself is the [Sys] state: the files
      on disk, the records the logger produces at the level the module
      configures, and the number of [doc.close()] calls made. *)

From Stdlib Require Import String Ascii DecimalString ZArith QArith Qround List Lia.
From Stdlib Require Import SpecFloat.
From Stdlib.Strings Require Import Byte.
From stdpp Require Import gmap strings.

Local Open Scope string_scope.
Local Open Scope nat_scope.

(** ** Python strings *)

Module PyStr.

(** The line feed written [\n] in the source. *)
Definition LF : string := String (ascii_of_nat 10) EmptyString.

(** [str(n)] for a non-negative [int], as an f-string field prints it. *)
Definition str_of_int (n : nat) : string :=
  NilZero.string_of_uint (Nat.to_uint n).

(** [c.isspace()] on the code points below 256: the ASCII controls
    [\t \n \v \f \r], the separators [0x1c .. 0x1f], the space, NEL
    ([0x85]) and the no-break space ([0xa0]). *)
Definition isspace (c : ascii) : bool :=
  let n := nat_of_ascii c in
  ((9 <=? n) && (n <=? 13)) || ((28 <=? n) && (n <=? 32))
  || (n =? 133) || (n =? 160).

(** [s.lstrip()] *)
Fixpoint lstrip (s : string) : string :=
  match s with
  | EmptyString => EmptyString
  | String c rest => if isspace c then lstrip rest else s
  end.

(** [s.rstrip()] *)
Fixpoint rstrip (s : string) : string :=
  match s with
  | EmptyString => EmptyString
  | String c rest =>
      match rstrip rest with
      | EmptyString => if isspace c then EmptyString else String c EmptyString
      | kept => String c kept
      end
  end.

(** [s.strip()]: the slice between the first and the last character
    that is not whitespace. *)
Definition strip (s : string) : string := rstrip (lstrip s).

(** Every character of [s] is whitespace. *)
Fixpoint all_space (s : string) : bool :=
  match s with
  | EmptyString => true
  | String c rest => isspace c && all_space rest
  end.

Definition head_is_space (s : string) : bool :=
  match s with
  | EmptyString => false
  | String c _ => isspace c
  end.

Fixpoint last_is_space (s : string) : bool :=
  match s with
  | EmptyString => false
  | String c EmptyString => isspace c
  | String _ rest => last_is_space rest
  end.

End PyStr.

Import PyStr.

(** ** Transcript formatting: the string built by [write_to_txt] *)

(** The [for pg_no, img_text in enumerate(text_pages)] loop of
    [write_to_txt]; [pg_no] is the counter of [enumerate] and
    [full_doc_text] the accumulator the two [+=] extend. *)
Fixpoint write_to_txt_loop (pg_no : nat) (text_pages : list string)
    (full_doc_text : string) : string :=
  match text_pages with
  | [] => full_doc_text
  | img_text :: rest =>
      let full_doc_text :=
        full_doc_text +:+ ("-- Page " +:+ str_of_int (pg_no + 1) +:+ " --" +:+ LF) in
      let full_doc_text :=
        full_doc_text +:+ (strip img_text +:+ LF +:+ LF) in
      write_to_txt_loop (S pg_no) rest full_doc_text
  end.

(** The value of [full_doc_text] when the loop of [write_to_txt] ends. *)
Definition full_doc_text (text_pages : list string) : string :=
  write_to_txt_loop 0 text_pages "".

(** The formatting rule as the specification words it: one block per
    page, label, trimmed text, blank line; the transcript is the
    concatenation of the blocks in page order. *)
Definition spec_block (i : nat) (page_text : string) : string :=
  "-- Page " +:+ str_of_int (i + 1) +:+ " --" +:+ LF +:+ strip page_text +:+ LF +:+ LF.

Fixpoint spec_blocks_from (i : nat) (pages : list string) : list string :=
  match pages with
  | [] => []
  | t :: rest => spec_block i t :: spec_blocks_from (S i) rest
  end.

Definition spec_transcript (pages : list string) : string :=
  fold_right String.append "" (spec_blocks_from 0 pages).


(** ** Exceptions and outcomes *)

(** A raised exception object: its class, what [str(e)] prints, and
    whether the class derives from [Exception] (a [KeyboardInterrupt]
    does not, and [except Exception] lets it pass). *)
Record PyExc := {
  exc_class : string;
  exc_str : string;
  exc_is_Exception : bool
}.

Inductive Outcome (A : Type) : Type :=
| Ok (value : A)
| Raise (e : PyExc).

Arguments Ok {A} value.
Arguments Raise {A} e.

Definition is_ok {A} (o : Outcome A) : bool :=
  match o with Ok _ => true | Raise _ => false end.

(** Sequencing of calls that may raise and touch nothing else. *)
Definition and_then {A B} (o : Outcome A) (k : A -> Outcome B) : Outcome B :=
  match o with
  | Ok a => k a
  | Raise e => Raise e
  end.

(** ** Python floats *)

Definition float : Type := spec_float.

(** The float literal [0.0]. *)
Definition float_zero : float := S754_zero false.

(** The float literal [72.0]. *)
Definition float_72 : float :=
  Eval vm_compute in binary_normalize 53 1024 72 0 false.

Definition int_too_large : PyExc :=
  {| exc_class := "OverflowError";
     exc_str := "int too large to convert to float";
     exc_is_Exception := true |}.

Definition float_division_by_zero : PyExc :=
  {| exc_class := "ZeroDivisionError";
     exc_str := "float division by zero";
     exc_is_Exception := true |}.

(** The conversion of an [int] operand to [float]: the nearest float,
    ties to even, and [OverflowError] past the largest float. *)
Definition float_of_int (n : Z) : Outcome float :=
  match binary_normalize 53 1024 n 0 false with
  | S754_infinity _ => Raise int_too_large
  | x => Ok x
  end.

(** [x / y] on floats. *)
Definition float_truediv (x y : float) : Outcome float :=
  match y with
  | S754_zero _ => Raise float_division_by_zero
  | _ => Ok (SFdiv 53 1024 x y)
  end.

(** [n / y] for an [int] [n] and a [float] [y]. *)
Definition int_truediv_float (n : Z) (y : float) : Outcome float :=
  and_then (float_of_int n) (fun x => float_truediv x y).

(** The rational a finite float stands for. *)
Definition float_value (x : float) : Q :=
  match x with
  | S754_finite s m e => inject_Z (cond_Zopp s (Zpos m)) * Qpower (2 # 1) e
  | _ => 0
  end.

(** [x * y] on floats. *)
Definition float_mul (x y : float) : float := SFmul 53 1024 x y.

(** [round(x)] for a finite float: the nearest integer, ties to even. *)
Definition py_round (x : float) : Z :=
  let q := float_value x in
  let below := Qfloor q in
  match Qcompare (q - inject_Z below) (1 # 2) with
  | Lt => below
  | Gt => (below + 1)%Z
  | Eq => if Z.even below then below else (below + 1)%Z
  end.

(** ** The objects of PyMuPDF and PIL the module handles *)

Inductive ImageMode := RGB | RGBA.

(** [fitz.Matrix]: the six float coefficients [a b c d e f]. *)
Record Matrix := {
  mat_a : float; mat_b : float; mat_c : float;
  mat_d : float; mat_e : float; mat_f : float
}.

(** [fitz.Matrix(sx, sy)]: the scaling matrix. *)
Definition fitz_Matrix (sx sy : float) : Matrix :=
  {| mat_a := sx; mat_b := float_zero; mat_c := float_zero;
     mat_d := sy; mat_e := float_zero; mat_f := float_zero |}.

(** [fitz.Pixmap], by the attributes the module reads. *)
Record Pixmap := {
  pix_alpha : bool;
  pix_width : Z;
  pix_height : Z;
  pix_samples : list byte
}.

(** [fitz.Page]: [get_pixmap(matrix=..., alpha=...)]. *)
Record Page := {
  get_pixmap : Matrix -> bool -> Outcome Pixmap
}.

(** [fitz.Document]: [page_count] and [load_page(page_index)]. *)
Record Document := {
  page_count : nat;
  load_page : nat -> Outcome Page
}.

(** [PIL.Image.Image], by mode, size and pixel data. *)
Record Image := {
  im_mode : ImageMode;
  im_size : Z * Z;
  im_data : list byte
}.

(** The code the module calls and does not define. *)
Record World := {
  (** [fitz.open(pdf_path)]. The documents are read from a store the
      model keeps apart from [files], the files the module writes. *)
  fitz_open : string -> Outcome Document;
  (** the pixel data the image of [Image.frombytes(mode, size, data)]
      holds, or the exception the call raises *)
  frombytes_pixels : ImageMode -> Z * Z -> list byte -> Outcome (list byte);
  (** [ocralign.tess_align.process_page(image)] *)
  process_page : Image -> Outcome string;
  (** the exception [open(path, "w")] raises, if any *)
  open_w_error : string -> option PyExc;
  (** the exception raised when [text] is written to the file at [path]
      and the file is closed, if any, with the part of [text] that has
      reached the file by then *)
  write_error : string -> string -> option (PyExc * string)
}.

(** ** What a run changes: files, log records, close calls *)

Inductive LogLevel := DEBUG | INFO | ERROR.

(** [log] holds the level and the message of each record the logger
    produces, in order; [exc_infos] holds the exceptions attached to
    records through [exc_info=True], in order. *)
Record Sys := {
  files : gmap string string;
  log : list (LogLevel * string);
  exc_infos : list PyExc;
  close_calls : nat
}.

(** A statement of the module: from a state to an outcome and the state
    it leaves. *)
Definition M (A : Type) : Type := Sys -> Outcome A * Sys.

Definition ret {A} (a : A) : M A := fun s => (Ok a, s).

Definition bind {A B} (m : M A) (k : A -> M B) : M B :=
  fun s =>
    match m s with
    | (Ok a, s') => k a s'
    | (Raise e, s') => (Raise e, s')
    end.

(** A call into a library that changes nothing the model tracks. *)
Definition call {A} (o : Outcome A) : M A := fun s => (o, s).

Declare Scope py_scope.
Delimit Scope py_scope with py.
Notation "x <- m ;; k" := (bind m (fun x => k))
  (at level 100, m at next level, right associativity) : py_scope.
Notation "m ;; k" := (bind m (fun _ => k))
  (at level 100, right associativity) : py_scope.
Local Open Scope py_scope.

(** The logger produces the record; it never raises. *)
Definition emit (lvl : LogLevel) (msg : string) (s : Sys) : Sys :=
  {| files := files s; log := log s ++ [(lvl, msg)];
     exc_infos := exc_infos s; close_calls := close_calls s |}.

Definition attach_exc_info (e : PyExc) (s : Sys) : Sys :=
  {| files := files s; log := log s;
     exc_infos := exc_infos s ++ [e]; close_calls := close_calls s |}.

(** [logger.debug(msg)]. The module sets the logging level to [INFO]
    ([logging.basicConfig(level=logging.INFO)], lines 10 to 13), and its
    logger has no level of its own: a debug call produces no record. *)
Definition logger_debug (msg : string) : M unit := fun s => (Ok tt, s).

(** [logger.info(msg)] *)
Definition logger_info (msg : string) : M unit := fun s => (Ok tt, emit INFO msg s).

(** [logger.error(msg, exc_info=True)] in an [except] clause handling
    [e]: the record carries [e] with its traceback. *)
Definition logger_error (msg : string) (e : PyExc) : M unit :=
  fun s => (Ok tt, attach_exc_info e (emit ERROR msg s)).

(** [doc.close()] *)
Definition doc_close (doc : Document) : M unit :=
  fun s =>
    (Ok tt, {| files := files s; log := log s;
               exc_infos := exc_infos s; close_calls := S (close_calls s) |}).

Definition set_file (path content : string) (s : Sys) : Sys :=
  {| files := <[path := content]> (files s); log := log s;
     exc_infos := exc_infos s; close_calls := close_calls s |}.

(** [bool(s)] for a [str]: false exactly for the empty string. *)
Definition bool_str (s : string) : bool :=
  match s with
  | EmptyString => false
  | String _ _ => true
  end.

(** [bool(output_path)] for an [Optional[str]]: [None] is false. *)
Definition bool_optional_str (o : option string) : bool :=
  match o with
  | None => false
  | Some s => bool_str s
  end.

Section Pipeline.

Variable W : World.

(** [open(output_path, "w")]: raises and leaves the disk alone, or
    creates the file empty (truncating the one that was there). *)
Definition open_w (output_path : string) : M unit :=
  fun s =>
    match open_w_error W output_path with
    | Some e => (Raise e, s)
    | None => (Ok tt, set_file output_path "" s)
    end.

(** [f_.write(text)] on the file just opened, followed by the close of
    the [with] block: the file holds [text], or an exception is raised
    and the file holds the part of [text] written by then. *)
Definition file_write (output_path text : string) : M unit :=
  fun s =>
    match write_error W output_path text with
    | Some (e, written) => (Raise e, set_file output_path written s)
    | None => (Ok tt, set_file output_path text s)
    end.

(** [write_to_txt(output_path, text_pages)] *)
Definition write_to_txt (output_path : string) (text_pages : list string) : M unit :=
  let full_doc_text := full_doc_text text_pages in
  open_w output_path ;;
  file_write output_path full_doc_text ;;
  logger_info ("Output written to file " +:+ output_path +:+ ".").

(** [Image.frombytes(mode, size, data)]: a new image of that mode and
    size, filled with what PIL decodes from [data]. *)
Definition Image_frombytes (mode : ImageMode) (size : Z * Z) (data : list byte)
  : Outcome Image :=
  and_then (frombytes_pixels W mode size data) (fun pixels =>
  Ok {| im_mode := mode; im_size := size; im_data := pixels |}).

(** [_page_to_pil_image(page, dpi)] *)
Definition _page_to_pil_image (page : Page) (dpi : Z) : Outcome Image :=
  and_then (int_truediv_float dpi float_72) (fun zoom =>
  let mat := fitz_Matrix zoom zoom in
  and_then (get_pixmap page mat false) (fun pix =>
  let mode := if pix_alpha pix then RGBA else RGB in
  Image_frombytes mode (pix_width pix, pix_height pix) (pix_samples pix))).

(** The [for page_index in tqdm(range(page_count))] loop of
    [process_pdf]: [indices] is what is left of the range, [text_pages]
    the list the body appends to. *)
Fixpoint process_pdf_loop (doc : Document) (dpi : Z) (indices : list nat)
    (text_pages : list string) : M (list string) :=
  match indices with
  | [] => ret text_pages
  | page_index :: rest =>
      logger_debug ("Processing page " +:+ str_of_int (page_index + 1)) ;;
      page <- call (load_page doc page_index) ;;
      image <- call (_page_to_pil_image page dpi) ;;
      text <- call (process_page W image) ;;
      let text_pages := (text_pages ++ [text])%list in
      logger_debug ("Extracted text from page " +:+ str_of_int (page_index + 1)) ;;
      process_pdf_loop doc dpi rest text_pages
  end.

(** The [try] block of [process_pdf] from the line after
    [doc = fitz.open(pdf_path)] on. *)
Definition process_pdf_opened (doc : Document) (dpi : Z)
    (output_path : option string) : M (option (list string)) :=
  let page_count := page_count doc in
  logger_info ("Opened PDF with " +:+ str_of_int page_count +:+ " page(s)") ;;
  text_pages <- process_pdf_loop doc dpi (seq 0 page_count) [] ;;
  match output_path with
  | Some path =>
      if bool_str path
      then write_to_txt path text_pages ;; ret None
      else ret (Some text_pages)
  | None => ret (Some text_pages)
  end.

(** The whole [try] block. Beside the outcome and the state it gives the
    value the local [doc] has when the block is left: [None] until
    [fitz.open] has returned. *)
Definition process_pdf_try (pdf_path : string) (dpi : Z)
    (output_path : option string)
  : Sys -> option Document * (Outcome (option (list string)) * Sys) :=
  fun s =>
    let s := emit INFO ("Starting PDF processing for: " +:+ pdf_path) s in
    match fitz_open W pdf_path with
    | Raise e => (None, (Raise e, s))
    | Ok doc => (Some doc, process_pdf_opened doc dpi output_path s)
    end.

(** The [except Exception as e] clause: log, then the bare [raise]
    raises [e] again. *)
Definition process_pdf_except (e : PyExc) : M (option (list string)) :=
  logger_error ("Failed to process PDF: " +:+ exc_str e) e ;;
  call (Raise e).

(** The [finally] clause. *)
Definition process_pdf_finally (doc : option Document) : M unit :=
  match doc with
  | Some d => doc_close d
  | None => ret tt
  end.

(** [process_pdf(pdf_path, dpi, output_path)]. The result [None] is the
    Python [None]; [Some text_pages] is the returned list. *)
Definition process_pdf (pdf_path : string) (dpi : Z)
    (output_path : option string) : M (option (list string)) :=
  fun s =>
    let '(doc, (r, s)) := process_pdf_try pdf_path dpi output_path s in
    let '(r, s) :=
      match r with
      | Raise e => if exc_is_Exception e then process_pdf_except e s else (r, s)
      | Ok _ => (r, s)
      end in
    match process_pdf_finally doc s with
    | (Ok _, s) => (r, s)
    | (Raise e, s) => (Raise e, s)
    end.

(** What the loop body computes for one page: load, render, recognise. *)
Definition page_text (doc : Document) (dpi : Z) (page_index : nat) : Outcome string :=
  and_then (load_page doc page_index) (fun page =>
  and_then (_page_to_pil_image page dpi) (fun image =>
  process_page W image)).

(** Page [i] is the first page of [doc] on which loading, rendering or
    recognition raises, and it raises [e]. *)
Definition fails_at (doc : Document) (dpi : Z) (i : nat) (e : PyExc) : Prop :=
  i < page_count doc
  /\ (forall j, j < i -> is_ok (page_text doc dpi j) = true)
  /\ page_text doc dpi i = Raise e.

(** Loading, rendering and recognition succeed on every page of [doc]. *)
Definition all_pages_ok (doc : Document) (dpi : Z) : Prop :=
  forall i, i < page_count doc -> is_ok (page_text doc dpi i) = true.

(** [texts] are the texts of the pages of [doc] at [indices], in that
    order. *)
Definition texts_of (doc : Document) (dpi : Z) (indices : list nat)
    (texts : list string) : Prop :=
  Forall2 (fun i t => page_text doc dpi i = Ok t) indices texts.

End Pipeline.

(** [get_pixmap] of the page gives no alpha channel when asked for none,
    as PyMuPDF documents its [alpha] argument. *)
Definition honours_alpha_false (page : Page) : Prop :=
  forall mat pix, get_pixmap page mat false = Ok pix -> pix_alpha pix = false.

(** ** Sample documents and a sample world *)

Module Demo.

Definition recognition_failed : PyExc :=
  {| exc_class := "RuntimeError"; exc_str := "recognition failed";
     exc_is_Exception := true |}.

Definition render_failed : PyExc :=
  {| exc_class := "RuntimeError"; exc_str := "cannot render page";
     exc_is_Exception := true |}.

Definition file_not_found : PyExc :=
  {| exc_class := "FileNotFoundError"; exc_str := "no such file";
     exc_is_Exception := true |}.

Definition permission_denied : PyExc :=
  {| exc_class := "PermissionError"; exc_str := "permission denied";
     exc_is_Exception := true |}.

Definition page_not_in_document : PyExc :=
  {| exc_class := "ValueError"; exc_str := "page not in document";
     exc_is_Exception := true |}.

Definition not_enough_image_data : PyExc :=
  {| exc_class := "ValueError"; exc_str := "not enough image data";
     exc_is_Exception := true |}.

(** One grey RGB pixel for each byte of [text], its three samples that
    byte. *)
Definition grey_pixels (text : string) : list byte :=
  flat_map (fun b => [b; b; b]) (list_byte_of_string text).

(** The first sample of each RGB pixel. *)
Fixpoint reds (data : list byte) : list byte :=
  match data with
  | r :: _ :: _ :: rest => r :: reds rest
  | _ => []
  end.

(** A page that renders to a one-row opaque pixmap, a grey pixel for
    each byte of [text]. *)
Definition page_of (text : string) : Page :=
  {| get_pixmap := fun _ _ =>
       Ok {| pix_alpha := false;
             pix_width := Z.of_nat (String.length text);
             pix_height := 1;
             pix_samples := grey_pixels text |} |}.

(** A page that cannot be rendered. *)
Definition broken_page : Page :=
  {| get_pixmap := fun _ _ => Raise render_failed |}.

Definition document_of (pages : list Page) : Document :=
  {| page_count := length pages;
     load_page := fun i =>
       match nth_error pages i with
       | Some p => Ok p
       | None => Raise page_not_in_document
       end |}.

(** [Image.frombytes] as PIL has it: a byte for each band of each pixel
    is wanted; fewer raise, more are left unread. *)
Definition frombytes (mode : ImageMode) (size : Z * Z) (data : list byte)
  : Outcome (list byte) :=
  let bands := match mode with RGB => 3%Z | RGBA => 4%Z end in
  let wanted := Z.to_nat (fst size * snd size * bands) in
  if (length data <? wanted)%nat
  then Raise not_enough_image_data
  else Ok (firstn wanted data).

(** A recogniser that reads the pixels back as text and gives up on an
    image without data. *)
Definition recognise (image : Image) : Outcome string :=
  match im_data image with
  | [] => Raise recognition_failed
  | data => Ok (string_of_list_byte (reds data))
  end.

Definition hello_world : Document := document_of [page_of "Hello"; page_of " World "].
Definition no_pages : Document := document_of [].
Definition blank_first : Document := document_of [page_of ""; page_of "b"].
Definition blank_second : Document := document_of [page_of "a"; page_of ""].
Definition torn : Document := document_of [page_of "a"; broken_page; page_of "c"].

Definition world : World :=
  {| fitz_open := fun path =>
       if String.eqb path "hello.pdf" then Ok hello_world
       else if String.eqb path "empty.pdf" then Ok no_pages
       else if String.eqb path "blank1.pdf" then Ok blank_first
       else if String.eqb path "blank2.pdf" then Ok blank_second
       else if String.eqb path "torn.pdf" then Ok torn
       else Raise file_not_found;
     frombytes_pixels := frombytes;
     process_page := recognise;
     open_w_error := fun path =>
       if String.eqb path "/readonly/out.txt" then Some permission_denied else None;
     write_error := fun _ _ => None |}.

(** A disk with one file on it, an empty log, no close call made. *)
Definition sys0 : Sys :=
  {| files := {[ "notes.txt" := "keep" ]}; log := []; exc_infos := [];
     close_calls := 0 |}.

End Demo.

(** ** What the logger produces in the [except] clause *)

(** The record of the [except] clause: one for an exception that
    [except Exception] catches, none for one it lets pass. *)
Definition except_records (e : PyExc) : list (LogLevel * string) :=
  if exc_is_Exception e
  then [ (ERROR, "Failed to process PDF: " +:+ exc_str e) ]
  else [].

(** ** More sample pages and worlds: a full disk, an interrupted
    recogniser, pages that render as MuPDF renders *)

Module Faults.

Definition disk_full : PyExc :=
  {| exc_class := "OSError"; exc_str := "No space left on device";
     exc_is_Exception := true |}.

Definition keyboard_interrupt : PyExc :=
  {| exc_class := "KeyboardInterrupt"; exc_str := "";
     exc_is_Exception := false |}.

(** The recogniser of [Demo], interrupted on an image without data. *)
Definition recognise (image : Image) : Outcome string :=
  match im_data image with
  | [] => Raise keyboard_interrupt
  | data => Ok (string_of_list_byte (Demo.reds data))
  end.

(** A disk that fills up while the file at [/full/out.txt] is written:
    the first ten characters reach the file. *)
Definition world : World :=
  {| fitz_open := fitz_open Demo.world;
     frombytes_pixels := frombytes_pixels Demo.world;
     process_page := recognise;
     open_w_error := open_w_error Demo.world;
     write_error := fun path text =>
       if String.eqb path "/full/out.txt"
       then Some (disk_full, substring 0 10 text)
       else None |}.


(** A page whose pixmap has four samples where its size wants twelve. *)
Definition short_page : Page :=
  {| get_pixmap := fun _ _ =>
       Ok {| pix_alpha := false; pix_width := 2; pix_height := 2;
             pix_samples := [x00; x00; x00; x00] |} |}.

(** The length in pixels MuPDF gives a side of [points] points under
    the scale factor [scale]: the scaled side rounded outwards, a
    thousandth of a pixel ignored. *)
Definition pixels_outwards (points : Z) (scale : float) : Z :=
  Qceiling (inject_Z points * float_value scale - (1 # 1000)).

(** A blank page of [width_pt] by [height_pt] points with nothing
    painted on it. Rendered with an alpha channel each pixel is
    transparent; without one, as asked, each pixel is white. *)
Definition blank_page (width_pt height_pt : Z) : Page :=
  {| get_pixmap := fun mat alpha =>
       let w := pixels_outwards width_pt (mat_a mat) in
       let h := pixels_outwards height_pt (mat_d mat) in
       Ok {| pix_alpha := alpha; pix_width := w; pix_height := h;
             pix_samples :=
               flat_map (fun _ => if alpha then [xff; xff; xff; x00]
                                  else [xff; xff; xff])
                 (seq 0 (Z.to_nat (w * h))) |} |}.

End Faults.

(** * Properties *)

(** ** Strings *)

Lemma append_nil_l (s : string) : "" +:+ s = s.
Proof. reflexivity. Qed.

Lemma append_cons (c : ascii) (s t : string) :
  String c s +:+ t = String c (s +:+ t).
Proof. reflexivity. Qed.

Lemma append_nil_r (s : string) : s +:+ "" = s.
Proof.
  induction s as [|c s IH]; [reflexivity|].
  rewrite append_cons, IH. reflexivity.
Qed.

Lemma append_assoc (s t u : string) : (s +:+ t) +:+ u = s +:+ (t +:+ u).
Proof.
  induction s as [|c s IH]; [reflexivity|].
  rewrite !append_cons, IH. reflexivity.
Qed.

Lemma all_space_append (s t : string) :
  all_space (s +:+ t) = all_space s && all_space t.
Proof.
  induction s as [|c s IH]; [reflexivity|].
  rewrite append_cons. simpl. rewrite IH. apply andb_assoc.
Qed.

(** [lstrip] drops a prefix of whitespace and stops at the first
    character that is not. *)
Lemma lstrip_spec (s : string) :
  exists l, s = l +:+ lstrip s
            /\ all_space l = true
            /\ head_is_space (lstrip s) = false.
Proof.
  induction s as [|c s (l & Hs & Hl & Hh)].
  - exists "". repeat split.
  - simpl. destruct (isspace c) eqn:Hc.
    + exists (String c l). rewrite append_cons, <- Hs. simpl.
      rewrite Hc, Hl. repeat split. exact Hh.
    + exists "". simpl. rewrite Hc. repeat split.
Qed.

(** [rstrip] drops a suffix of whitespace and stops at the last
    character that is not. *)
Lemma rstrip_spec (s : string) :
  exists r, s = rstrip s +:+ r
            /\ all_space r = true
            /\ last_is_space (rstrip s) = false.
Proof.
  induction s as [|c s (r & Hs & Hr & Hl)].
  - exists "". repeat split.
  - simpl. destruct (rstrip s) as [|k kept] eqn:Hk.
    + rewrite append_nil_l in Hs. subst r.
      destruct (isspace c) eqn:Hc.
      * exists (String c s). simpl. rewrite Hc, Hr. repeat split.
      * exists s. simpl. rewrite Hc. repeat split; assumption.
    + exists r. rewrite append_cons, <- Hs. repeat split; assumption.
Qed.

(** [rstrip] leaves a front character that is not whitespace in place. *)
Lemma rstrip_head (s : string) :
  head_is_space s = false -> head_is_space (rstrip s) = false.
Proof.
  destruct s as [|c s]; [reflexivity|].
  simpl. intros Hc. destruct (rstrip s); [rewrite Hc|]; exact Hc.
Qed.

(** [strip] removes whitespace from both ends, nothing else, and all of
    it. *)
Lemma strip_spec (t : string) :
  exists l r, t = l +:+ strip t +:+ r
              /\ all_space l = true /\ all_space r = true
              /\ head_is_space (strip t) = false
              /\ last_is_space (strip t) = false.
Proof.
  destruct (lstrip_spec t) as (l & Ht & Hl & Hh).
  destruct (rstrip_spec (lstrip t)) as (r & Hu & Hr & Hlast).
  exists l, r. unfold strip. rewrite <- Hu.
  repeat split; try assumption. now apply rstrip_head.
Qed.

(** The loop of [write_to_txt] appends the blocks of the pages it is
    given, numbered from [pg_no], to what it has so far. *)
Lemma write_to_txt_loop_blocks (pages : list string) :
  forall pg_no acc,
    write_to_txt_loop pg_no pages acc
    = acc +:+ fold_right String.append "" (spec_blocks_from pg_no pages).
Proof.
  induction pages as [|t pages IH]; intros pg_no acc; simpl.
  - now rewrite append_nil_r.
  - rewrite IH. unfold spec_block. now rewrite !append_assoc.
Qed.

Lemma full_doc_text_spec (pages : list string) :
  full_doc_text pages = spec_transcript pages.
Proof. unfold full_doc_text. now rewrite write_to_txt_loop_blocks. Qed.

Lemma spec_blocks_from_length (pages : list string) :
  forall i, length (spec_blocks_from i pages) = length pages.
Proof. induction pages as [|t pages IH]; intros i; simpl; [|rewrite IH]; reflexivity. Qed.

(** ** The page loop *)

Section PipelineFacts.

Variable W : World.

(** One turn of the loop: the page's text is appended and the loop goes
    on, or the page's exception leaves the loop. *)
Lemma process_pdf_loop_step doc dpi i rest acc s :
  process_pdf_loop W doc dpi (i :: rest) acc s
  = match page_text W doc dpi i with
    | Ok t => process_pdf_loop W doc dpi rest (acc ++ [t])%list s
    | Raise e => (Raise e, s)
    end.
Proof.
  unfold page_text. simpl. unfold bind, call, logger_debug, and_then.
  destruct (load_page doc i) as [page|e]; [|reflexivity].
  destruct (_page_to_pil_image W page dpi) as [image|e]; [|reflexivity].
  destruct (process_page W image) as [t|e]; reflexivity.
Qed.

(** The loop writes log records only. *)
Lemma process_pdf_loop_frame doc dpi indices :
  forall acc s,
    files (snd (process_pdf_loop W doc dpi indices acc s)) = files s
    /\ close_calls (snd (process_pdf_loop W doc dpi indices acc s)) = close_calls s.
Proof.
  induction indices as [|i rest IH]; intros acc s; [split; reflexivity|].
  rewrite process_pdf_loop_step.
  destruct (page_text W doc dpi i) as [t|e]; [|split; reflexivity].
  apply IH.
Qed.

(** When every page gives a text the loop returns them all, appended in
    the order of the indices. *)
Lemma process_pdf_loop_ok doc dpi indices :
  forall texts acc s,
    texts_of W doc dpi indices texts ->
    fst (process_pdf_loop W doc dpi indices acc s) = Ok (acc ++ texts)%list.
Proof.
  induction indices as [|i rest IH]; intros texts acc s Hall.
  - apply Forall2_nil_inv_l in Hall. subst texts.
    simpl. now rewrite app_nil_r.
  - apply Forall2_cons_inv_l in Hall as (t & texts' & Ht & Hrest & ->).
    rewrite process_pdf_loop_step, Ht.
    rewrite (IH texts' _ _ Hrest). now rewrite <- app_assoc.
Qed.

(** The first page to raise ends the loop with its exception. *)
Lemma process_pdf_loop_raise doc dpi pre i post e :
  forall acc s,
    Forall (fun j => is_ok (page_text W doc dpi j) = true) pre ->
    page_text W doc dpi i = Raise e ->
    fst (process_pdf_loop W doc dpi (pre ++ i :: post) acc s) = Raise e.
Proof.
  induction pre as [|j pre IH]; intros acc s Hpre Hi.
  - simpl app. now rewrite process_pdf_loop_step, Hi.
  - apply Forall_cons_1 in Hpre as [Hj Hpre].
    rewrite <- app_comm_cons, process_pdf_loop_step.
    destruct (page_text W doc dpi j) as [t|e']; [|discriminate].
    now apply IH.
Qed.

(** Going up from [start], either every page gives a text or there is a
    first one that raises. *)
Lemma pages_ok_or_first_failure doc dpi n :
  forall start,
    (exists texts, texts_of W doc dpi (seq start n) texts)
    \/ (exists i e, start <= i < start + n
                    /\ (forall j, start <= j < i -> is_ok (page_text W doc dpi j) = true)
                    /\ page_text W doc dpi i = Raise e).
Proof.
  induction n as [|n IH]; intros start.
  - left. exists []. constructor.
  - simpl seq. destruct (page_text W doc dpi start) as [t|e] eqn:Hstart.
    + destruct (IH (S start)) as [[texts Htexts] | (i & e & Hi & Hbefore & Hraise)].
      * left. exists (t :: texts). now constructor.
      * right. exists i, e. split; [lia|]. split; [|assumption].
        intros j Hj. destruct (Nat.eq_dec j start) as [->|Hne].
        -- now rewrite Hstart.
        -- apply Hbefore. lia.
    + right. exists start, e. split; [lia|]. split; [|assumption].
      intros j Hj. lia.
Qed.

Lemma texts_of_length doc dpi indices texts :
  texts_of W doc dpi indices texts -> length texts = length indices.
Proof. intros H. symmetry. exact (Forall2_length _ _ _ H). Qed.

(** The text at position [i] is the text of the page of index [i]. *)
Lemma texts_of_nth doc dpi n texts :
  forall start,
    texts_of W doc dpi (seq start n) texts ->
    forall i, i < n -> page_text W doc dpi (start + i) = Ok (nth i texts "").
Proof.
  revert texts. induction n as [|n IH]; intros texts start Hall i Hi; [lia|].
  simpl seq in Hall.
  apply Forall2_cons_inv_l in Hall as (t & texts' & Ht & Hrest & ->).
  destruct i as [|i]; simpl.
  - now rewrite Nat.add_0_r.
  - rewrite Nat.add_succ_r. apply (IH texts' (S start) Hrest). lia.
Qed.

(** Two lists that hold the texts of the same pages are the same list. *)
Lemma texts_of_unique doc dpi indices :
  forall texts texts',
    texts_of W doc dpi indices texts -> texts_of W doc dpi indices texts' ->
    texts = texts'.
Proof.
  induction indices as [|i rest IH]; intros texts texts' H H'.
  - apply Forall2_nil_inv_l in H, H'. congruence.
  - apply Forall2_cons_inv_l in H as (t & u & Ht & Hu & ->).
    apply Forall2_cons_inv_l in H' as (t' & u' & Ht' & Hu' & ->).
    f_equal; [congruence | now apply IH].
Qed.

Lemma texts_of_all_ok doc dpi texts :
  texts_of W doc dpi (seq 0 (page_count doc)) texts -> all_pages_ok W doc dpi.
Proof.
  intros H i Hi. pose proof (texts_of_nth _ _ _ _ 0 H i Hi) as E.
  simpl in E. now rewrite E.
Qed.

Lemma all_ok_texts_of doc dpi :
  all_pages_ok W doc dpi ->
  exists texts, texts_of W doc dpi (seq 0 (page_count doc)) texts.
Proof.
  intros Hall.
  destruct (pages_ok_or_first_failure doc dpi (page_count doc) 0)
    as [Hok | (i & e & Hi & _ & Hraise)]; [assumption|].
  specialize (Hall i ltac:(lia)). rewrite Hraise in Hall. discriminate.
Qed.

Lemma seq_split_at n i :
  i < n -> seq 0 n = (seq 0 i ++ i :: seq (S i) (n - S i))%list.
Proof.
  intros Hi. replace n with (i + S (n - S i)) at 1 by lia.
  now rewrite seq_app.
Qed.

(** On a document with a first failing page the loop raises that page's
    exception. *)
Lemma process_pdf_loop_fails_at doc dpi i e acc s :
  fails_at W doc dpi i e ->
  fst (process_pdf_loop W doc dpi (seq 0 (page_count doc)) acc s) = Raise e.
Proof.
  intros (Hi & Hbefore & Hraise).
  rewrite (seq_split_at _ _ Hi).
  apply process_pdf_loop_raise; [|assumption].
  apply Forall_forall. intros j Hj. apply elem_of_seq in Hj. apply Hbefore. lia.
Qed.

(** A document has at most one first failing page. *)
Lemma fails_at_unique doc dpi i e i' e' :
  fails_at W doc dpi i e -> fails_at W doc dpi i' e' -> i = i' /\ e = e'.
Proof.
  intros (Hi & Hb & Hr) (Hi' & Hb' & Hr').
  assert (i = i') as <-.
  { destruct (Nat.lt_trichotomy i i') as [Hlt | [Heq | Hgt]]; [|assumption|].
    - specialize (Hb' i Hlt). rewrite Hr in Hb'. discriminate.
    - specialize (Hb i' Hgt). rewrite Hr' in Hb. discriminate. }
  split; [reflexivity | congruence].
Qed.

Lemma fails_at_not_all_ok doc dpi i e :
  fails_at W doc dpi i e -> all_pages_ok W doc dpi -> False.
Proof.
  intros (Hi & _ & Hr) Hall. specialize (Hall i Hi).
  rewrite Hr in Hall. discriminate.
Qed.

End PipelineFacts.

(** ** Writing the transcript, and the run around the loop *)

Section ProcessFacts.

Variable W : World.

(** [write_to_txt] raises before it touches the disk, or after a part
    of the text has replaced what the file held, or it leaves the
    transcript in the file. *)
Lemma write_to_txt_cases path pages s :
  close_calls (snd (write_to_txt W path pages s)) = close_calls s
  /\ match open_w_error W path, write_error W path (full_doc_text pages) with
     | Some e, _ =>
         fst (write_to_txt W path pages s) = Raise e
         /\ files (snd (write_to_txt W path pages s)) = files s
     | None, Some (e, written) =>
         fst (write_to_txt W path pages s) = Raise e
         /\ files (snd (write_to_txt W path pages s)) = <[path := written]> (files s)
     | None, None =>
         fst (write_to_txt W path pages s) = Ok tt
         /\ files (snd (write_to_txt W path pages s))
            = <[path := full_doc_text pages]> (files s)
     end.
Proof.
  unfold write_to_txt, bind, open_w, file_write, logger_info.
  destruct (open_w_error W path) as [e|]; [simpl; auto|].
  destruct (write_error W path (full_doc_text pages)) as [[e written]|]; simpl;
    (split; [reflexivity|]); (split; [reflexivity|]); apply insert_insert_eq.
Qed.

(** Around an opened document, [except] and [finally] keep the outcome
    and the disk of the [try] block and add one [close] call. *)
Lemma process_pdf_of_opened path dpi out s doc :
  fitz_open W path = Ok doc ->
  let body :=
    process_pdf_opened W doc dpi out
      (emit INFO ("Starting PDF processing for: " +:+ path) s) in
  fst (process_pdf W path dpi out s) = fst body
  /\ files (snd (process_pdf W path dpi out s)) = files (snd body)
  /\ close_calls (snd (process_pdf W path dpi out s)) = S (close_calls (snd body)).
Proof.
  intros Hopen body. unfold process_pdf, process_pdf_try. rewrite Hopen.
  fold body. destruct body as [[v|e] s1]; simpl; [auto|].
  destruct (exc_is_Exception e); simpl; auto.
Qed.

(** When [fitz.open] raises, the caller gets that exception; nothing was
    opened and nothing is closed. *)
Lemma process_pdf_not_opened path dpi out s e :
  fitz_open W path = Raise e ->
  fst (process_pdf W path dpi out s) = Raise e
  /\ files (snd (process_pdf W path dpi out s)) = files s
  /\ close_calls (snd (process_pdf W path dpi out s)) = close_calls s.
Proof.
  intros Hopen. unfold process_pdf, process_pdf_try. rewrite Hopen.
  destruct (exc_is_Exception e); simpl; auto.
Qed.

(** The [try] block on an opened document, when a page raises. *)
Lemma process_pdf_opened_fails doc dpi out s i e :
  fails_at W doc dpi i e ->
  fst (process_pdf_opened W doc dpi out s) = Raise e
  /\ files (snd (process_pdf_opened W doc dpi out s)) = files s
  /\ close_calls (snd (process_pdf_opened W doc dpi out s)) = close_calls s.
Proof.
  intros Hfail. unfold process_pdf_opened, bind, logger_info. cbv beta.
  set (s1 := emit INFO _ s).
  pose proof (process_pdf_loop_fails_at W doc dpi i e [] s1 Hfail) as Hr.
  destruct (process_pdf_loop_frame W doc dpi (seq 0 (page_count doc)) [] s1) as [Hf Hc].
  destruct (process_pdf_loop W doc dpi (seq 0 (page_count doc)) [] s1) as [r s2].
  simpl in Hr, Hf, Hc. subst r. simpl. auto.
Qed.

(** The [try] block on an opened document, when every page gives a
    text and the list is to be returned. *)
Lemma process_pdf_opened_returns doc dpi out s texts :
  texts_of W doc dpi (seq 0 (page_count doc)) texts ->
  bool_optional_str out = false ->
  fst (process_pdf_opened W doc dpi out s) = Ok (Some texts)
  /\ files (snd (process_pdf_opened W doc dpi out s)) = files s
  /\ close_calls (snd (process_pdf_opened W doc dpi out s)) = close_calls s.
Proof.
  intros Htexts Hout. unfold process_pdf_opened, bind, logger_info. cbv beta.
  set (s1 := emit INFO _ s).
  pose proof (process_pdf_loop_ok W doc dpi _ texts [] s1 Htexts) as Hr.
  destruct (process_pdf_loop_frame W doc dpi (seq 0 (page_count doc)) [] s1) as [Hf Hc].
  destruct (process_pdf_loop W doc dpi (seq 0 (page_count doc)) [] s1) as [r s2].
  simpl in Hr, Hf, Hc. subst r.
  destruct out as [[|c p]|]; simpl in Hout; try discriminate; simpl; auto.
Qed.

(** The [try] block on an opened document, when every page gives a
    text and the transcript is to be written: what happens is what
    happens in [write_to_txt]. *)
Lemma process_pdf_opened_writes doc dpi path s texts :
  texts_of W doc dpi (seq 0 (page_count doc)) texts ->
  bool_str path = true ->
  close_calls (snd (process_pdf_opened W doc dpi (Some path) s)) = close_calls s
  /\ match open_w_error W path, write_error W path (full_doc_text texts) with
     | Some e, _ =>
         fst (process_pdf_opened W doc dpi (Some path) s) = Raise e
         /\ files (snd (process_pdf_opened W doc dpi (Some path) s)) = files s
     | None, Some (e, written) =>
         fst (process_pdf_opened W doc dpi (Some path) s) = Raise e
         /\ files (snd (process_pdf_opened W doc dpi (Some path) s))
            = <[path := written]> (files s)
     | None, None =>
         fst (process_pdf_opened W doc dpi (Some path) s) = Ok None
         /\ files (snd (process_pdf_opened W doc dpi (Some path) s))
            = <[path := full_doc_text texts]> (files s)
     end.
Proof.
  intros Htexts Hpath. unfold process_pdf_opened. rewrite Hpath.
  unfold bind, logger_info, ret. cbv beta.
  set (s1 := emit INFO _ s).
  pose proof (process_pdf_loop_ok W doc dpi _ texts [] s1 Htexts) as Hr.
  destruct (process_pdf_loop_frame W doc dpi (seq 0 (page_count doc)) [] s1) as [Hf Hc].
  destruct (process_pdf_loop W doc dpi (seq 0 (page_count doc)) [] s1) as [r s2].
  simpl in Hr, Hf, Hc. subst r. simpl app.
  destruct (write_to_txt_cases path texts s2) as [Hwc Hw].
  destruct (open_w_error W path) as [e|].
  - destruct Hw as [Hw1 Hw2].
    destruct (write_to_txt W path texts s2) as [rw s3]. simpl in *. subst rw.
    simpl. split; [congruence|]. split; [reflexivity|congruence].
  - destruct (write_error W path (full_doc_text texts)) as [[e written]|];
      destruct Hw as [Hw1 Hw2];
      destruct (write_to_txt W path texts s2) as [rw s3]; simpl in *; subst rw;
      simpl; (split; [congruence|]); (split; [reflexivity|congruence]).
Qed.

End ProcessFacts.

(** ** The page renderer *)

(** [dpi / 72.0] raises only the [OverflowError] of the conversion of
    [dpi] to a float: the divisor is not zero. *)
Lemma zoom_cases (dpi : Z) :
  match float_of_int dpi with
  | Ok x => int_truediv_float dpi float_72 = Ok (SFdiv 53 1024 x float_72)
  | Raise e => e = int_too_large /\ int_truediv_float dpi float_72 = Raise e
  end.
Proof.
  unfold int_truediv_float, and_then.
  destruct (float_of_int dpi) as [x|e] eqn:Hx; [reflexivity|].
  split; [|reflexivity].
  unfold float_of_int in Hx.
  destruct (binary_normalize 53 1024 dpi 0 false); congruence.
Qed.

(** What a rendering that returns has gone through: the division, the
    call of [get_pixmap] with [Matrix(zoom, zoom)] and [alpha=False],
    and [Image.frombytes] on the mode read off the pixmap, its size and
    its samples. *)
Lemma page_image_steps (W : World) (page : Page) (dpi : Z) (img : Image) :
  _page_to_pil_image W page dpi = Ok img ->
  exists x pix pixels,
    float_of_int dpi = Ok x
    /\ get_pixmap page
         (fitz_Matrix (SFdiv 53 1024 x float_72) (SFdiv 53 1024 x float_72)) false
       = Ok pix
    /\ frombytes_pixels W (if pix_alpha pix then RGBA else RGB)
         (pix_width pix, pix_height pix) (pix_samples pix) = Ok pixels
    /\ img = {| im_mode := if pix_alpha pix then RGBA else RGB;
                im_size := (pix_width pix, pix_height pix);
                im_data := pixels |}.
Proof.
  unfold _page_to_pil_image. intros Himg.
  pose proof (zoom_cases dpi) as Hz.
  destruct (float_of_int dpi) as [x|e].
  2:{ destruct Hz as [_ Hz]. rewrite Hz in Himg. discriminate. }
  rewrite Hz in Himg. cbn [and_then] in Himg.
  destruct (get_pixmap page _ false) as [pix|e] eqn:Hpix; [|discriminate].
  cbn [and_then] in Himg. unfold Image_frombytes in Himg.
  destruct (frombytes_pixels W _ _ _) as [pixels|e] eqn:Hpil; [|discriminate].
  cbn [and_then] in Himg. injection Himg as <-.
  exists x, pix, pixels. auto.
Qed.

(** C1, as the code has it. The image [_page_to_pil_image] returns has
    mode RGBA when the pixmap [get_pixmap] returned carries an alpha
    channel and RGB when it does not. The pixmap is the one asked for
    with [Matrix(zoom, zoom)], [zoom] the float [dpi / 72.0], and with
    [alpha=False]: on a page whose [get_pixmap] gives no alpha channel
    when asked for none, the mode is RGB, whatever the page shows. *)
Theorem page_image_mode (W : World) (page : Page) (dpi : Z) (img : Image) :
  _page_to_pil_image W page dpi = Ok img ->
  exists zoom pix,
    int_truediv_float dpi float_72 = Ok zoom
    /\ get_pixmap page (fitz_Matrix zoom zoom) false = Ok pix
    /\ im_mode img = (if pix_alpha pix then RGBA else RGB)
    /\ (honours_alpha_false page -> im_mode img = RGB).
Proof.
  intros Himg.
  destruct (page_image_steps W page dpi img Himg) as (x & pix & pixels & Hx & Hpix & _ & ->).
  pose proof (zoom_cases dpi) as Hz. rewrite Hx in Hz.
  exists (SFdiv 53 1024 x float_72), pix.
  split; [exact Hz|]. split; [exact Hpix|]. split; [reflexivity|].
  intros Hhonours. simpl. now rewrite (Hhonours _ _ Hpix).
Qed.

Lemma blank_page_honours_alpha_false (width_pt height_pt : Z) :
  honours_alpha_false (Faults.blank_page width_pt height_pt).
Proof. intros mat pix Hpix. injection Hpix as <-. reflexivity. Qed.

Lemma page_image_mode_witness :
  exists img,
    _page_to_pil_image Demo.world (Faults.blank_page 1 2) 300 = Ok img
    /\ honours_alpha_false (Faults.blank_page 1 2)
    /\ im_mode img = RGB.
Proof.
  eexists. split; [reflexivity|].
  split; [exact (blank_page_honours_alpha_false 1 2)|].
  destruct (page_image_mode Demo.world (Faults.blank_page 1 2) 300 _ eq_refl)
    as (zoom & pix & _ & _ & _ & Hrgb).
  exact (Hrgb (blank_page_honours_alpha_false 1 2)).
Defined.

(** C1, as stated, fails. A blank page is transparent: rendered with an
    alpha channel, at scale one, its one pixel has alpha zero. The
    renderer asks for no alpha channel, gets a white pixel, and the
    image is RGB, not RGBA. *)
Lemma page_mode_ignores_transparency :
  get_pixmap (Faults.blank_page 1 1)
    (fitz_Matrix (binary_normalize 53 1024 1 0 false)
       (binary_normalize 53 1024 1 0 false)) true
  = Ok {| pix_alpha := true; pix_width := 1; pix_height := 1;
          pix_samples := [xff; xff; xff; x00] |}
  /\ _page_to_pil_image Demo.world (Faults.blank_page 1 1) 72
     = Ok {| im_mode := RGB; im_size := (1, 1)%Z; im_data := [xff; xff; xff] |}.
Proof. split; reflexivity. Qed.

(** C9, as the code has it. The renderer passes [get_pixmap] the matrix
    with the one float [zoom = dpi / 72.0] on both axes and zero
    elsewhere, and the image has the width and the height of the pixmap
    [get_pixmap] returns for it: the renderer reads no page size and
    rounds nothing. *)
Theorem page_image_uniform_zoom (W : World) (page : Page) (dpi : Z) (img : Image) :
  _page_to_pil_image W page dpi = Ok img ->
  exists x zoom pix,
    float_of_int dpi = Ok x
    /\ zoom = SFdiv 53 1024 x float_72
    /\ get_pixmap page
         {| mat_a := zoom; mat_b := float_zero; mat_c := float_zero;
            mat_d := zoom; mat_e := float_zero; mat_f := float_zero |} false
       = Ok pix
    /\ im_size img = (pix_width pix, pix_height pix).
Proof.
  intros Himg.
  destruct (page_image_steps W page dpi img Himg) as (x & pix & pixels & Hx & Hpix & _ & ->).
  exists x, (SFdiv 53 1024 x float_72), pix. auto.
Qed.

Lemma page_image_uniform_zoom_witness :
  exists img,
    _page_to_pil_image Demo.world (Faults.blank_page 1 2) 300 = Ok img
    /\ exists x zoom pix,
         float_of_int 300 = Ok x
         /\ zoom = SFdiv 53 1024 x float_72
         /\ get_pixmap (Faults.blank_page 1 2)
              {| mat_a := zoom; mat_b := float_zero; mat_c := float_zero;
                 mat_d := zoom; mat_e := float_zero; mat_f := float_zero |} false
            = Ok pix
         /\ im_size img = (pix_width pix, pix_height pix).
Proof.
  eexists. split; [reflexivity|].
  exact (page_image_uniform_zoom Demo.world (Faults.blank_page 1 2) 300 _ eq_refl).
Defined.

(** C9, as stated, fails. A page of 1 by 2 points whose pixmap is sized
    as MuPDF sizes it, the scaled page box rounded outwards, gives at
    300 dpi an image of 5 by 9 pixels, where [round(1.0 * zoom)] is 4
    and [round(2.0 * zoom)] is 8. *)
Lemma page_image_size_not_rounded :
  exists zoom img,
    int_truediv_float 300 float_72 = Ok zoom
    /\ _page_to_pil_image Demo.world (Faults.blank_page 1 2) 300 = Ok img
    /\ im_size img = (5, 9)%Z
    /\ py_round (float_mul (binary_normalize 53 1024 1 0 false) zoom) = 4%Z
    /\ py_round (float_mul (binary_normalize 53 1024 2 0 false) zoom) = 8%Z.
Proof.
  eexists. eexists. split; [reflexivity|]. split; [reflexivity|].
  split; [reflexivity|]. split; vm_compute; reflexivity.
Qed.

(** ** The transcript *)

(** C4. The text [write_to_txt] builds is the concatenation, in page
    order, of one block per page: the label with the page index plus
    one, a line feed, the page text stripped of the whitespace at its
    two ends, two line feeds. For the pages Hello and World it is the
    string of the specification. The stripped text is the page text
    without a whitespace prefix and a whitespace suffix, and it neither
    starts nor ends with whitespace. When [open] and [write] do not raise,
    that text is what the file holds after [write_to_txt]. *)
Theorem write_to_txt_transcript :
  (forall pages, full_doc_text pages = spec_transcript pages)
  /\ full_doc_text ["Hello"; "World"]
     = "-- Page 1 --" +:+ LF +:+ "Hello" +:+ LF +:+ LF
       +:+ "-- Page 2 --" +:+ LF +:+ "World" +:+ LF +:+ LF
  /\ (forall t, exists l r,
        t = l +:+ strip t +:+ r
        /\ all_space l = true /\ all_space r = true
        /\ head_is_space (strip t) = false
        /\ last_is_space (strip t) = false)
  /\ (forall W path pages s,
        open_w_error W path = None ->
        write_error W path (full_doc_text pages) = None ->
        fst (write_to_txt W path pages s) = Ok tt
        /\ files (snd (write_to_txt W path pages s))
           = <[path := spec_transcript pages]> (files s)).
Proof.
  split; [exact full_doc_text_spec|].
  split; [reflexivity|].
  split; [exact strip_spec|].
  intros W path pages s Hopen Hwrite.
  destruct (write_to_txt_cases W path pages s) as [_ Hw].
  rewrite Hopen, Hwrite in Hw. now rewrite <- full_doc_text_spec.
Qed.

Lemma write_to_txt_transcript_witness :
  open_w_error Demo.world "out.txt" = None
  /\ write_error Demo.world "out.txt" (full_doc_text ["Hello"; " World "]) = None
  /\ fst (write_to_txt Demo.world "out.txt" ["Hello"; " World "] Demo.sys0) = Ok tt
  /\ files (snd (write_to_txt Demo.world "out.txt" ["Hello"; " World "] Demo.sys0))
     = <["out.txt" := spec_transcript ["Hello"; " World "]]> (files Demo.sys0).
Proof.
  split; [reflexivity|]. split; [reflexivity|].
  exact (proj2 (proj2 (proj2 write_to_txt_transcript))
           Demo.world "out.txt" ["Hello"; " World "] Demo.sys0 eq_refl eq_refl).
Defined.

(** ** The run as a whole *)

Section RunFacts.

Variable W : World.

(** On an opened document either some page is the first to raise or the
    pages have their texts. *)
Lemma fails_or_texts doc dpi :
  (exists i e, fails_at W doc dpi i e)
  \/ (exists texts, texts_of W doc dpi (seq 0 (page_count doc)) texts).
Proof.
  destruct (pages_ok_or_first_failure W doc dpi (page_count doc) 0)
    as [Hok | (i & e & Hi & Hbefore & Hraise)]; [right; assumption|].
  left. exists i, e. split; [lia|]. split; [|assumption].
  intros j Hj. apply Hbefore. lia.
Qed.

(** The [try] block never calls [close]. *)
Lemma process_pdf_opened_close_calls doc dpi out s :
  close_calls (snd (process_pdf_opened W doc dpi out s)) = close_calls s.
Proof.
  destruct (fails_or_texts doc dpi) as [(i & e & Hfail) | (texts & Htexts)].
  - now destruct (process_pdf_opened_fails W doc dpi out s i e Hfail) as (_ & _ & Hc).
  - destruct (bool_optional_str out) eqn:Hout.
    + destruct out as [p|]; [|discriminate]. simpl in Hout.
      now destruct (process_pdf_opened_writes W doc dpi p s texts Htexts Hout).
    + now destruct (process_pdf_opened_returns W doc dpi out s texts Htexts Hout)
        as (_ & _ & Hc).
Qed.

(** With an output path that is [None] or empty the run never touches
    the disk, and it ends with a list of texts or with an exception. *)
Lemma process_pdf_falsy path dpi out s :
  bool_optional_str out = false ->
  files (snd (process_pdf W path dpi out s)) = files s
  /\ ((exists texts, fst (process_pdf W path dpi out s) = Ok (Some texts))
      \/ (exists e, fst (process_pdf W path dpi out s) = Raise e)).
Proof.
  intros Hout. destruct (fitz_open W path) as [doc|e] eqn:Hopen.
  - destruct (process_pdf_of_opened W path dpi out s doc Hopen) as (Hr & Hf & _).
    rewrite Hr, Hf.
    destruct (fails_or_texts doc dpi) as [(i & e & Hfail) | (texts & Htexts)].
    + destruct (process_pdf_opened_fails W doc dpi out
                  (emit INFO ("Starting PDF processing for: " +:+ path) s) i e Hfail)
        as (Hr' & Hf' & _).
      split; [exact Hf' | right; eauto].
    + destruct (process_pdf_opened_returns W doc dpi out
                  (emit INFO ("Starting PDF processing for: " +:+ path) s)
                  texts Htexts Hout)
        as (Hr' & Hf' & _).
      split; [exact Hf' | left; eauto].
  - destruct (process_pdf_not_opened W path dpi out s e Hopen) as (Hr & Hf & _).
    split; [exact Hf | right; eauto].
Qed.

End RunFacts.

(** C6. When [fitz.open] has returned the document, [process_pdf] calls
    [doc.close()] exactly once by the time it returns or raises,
    whatever the pages, the recogniser and the output file do. *)
Theorem process_pdf_closes_once (W : World) (path : string) (dpi : Z)
    (out : option string) (s : Sys) (doc : Document) :
  fitz_open W path = Ok doc ->
  close_calls (snd (process_pdf W path dpi out s)) = S (close_calls s).
Proof.
  intros Hopen.
  destruct (process_pdf_of_opened W path dpi out s doc Hopen) as (_ & _ & Hc).
  rewrite Hc, process_pdf_opened_close_calls. reflexivity.
Qed.

Lemma process_pdf_closes_once_witness :
  fitz_open Demo.world "hello.pdf" = Ok Demo.hello_world
  /\ fst (process_pdf Demo.world "hello.pdf" 300 (Some "/readonly/out.txt") Demo.sys0)
     = Raise Demo.permission_denied
  /\ close_calls
       (snd (process_pdf Demo.world "hello.pdf" 300 (Some "/readonly/out.txt") Demo.sys0))
     = 1.
Proof.
  split; [reflexivity|]. split; [reflexivity|].
  exact (process_pdf_closes_once Demo.world "hello.pdf" 300
           (Some "/readonly/out.txt") Demo.sys0 Demo.hello_world eq_refl).
Defined.

(** C10. An empty string as output path is the same call as no output
    path: the two runs are equal, the disk is left as it was, and the
    run ends with a list or with an exception, never with [None]. When
    the document is opened and each page is rendered and recognised, the
    list returned is the list of the page texts, entry [i] the text of
    page [i]. *)
Theorem process_pdf_empty_output_path (W : World) (path : string) (dpi : Z) (s : Sys) :
  process_pdf W path dpi (Some "") s = process_pdf W path dpi None s
  /\ files (snd (process_pdf W path dpi (Some "") s)) = files s
  /\ ((exists texts, fst (process_pdf W path dpi (Some "") s) = Ok (Some texts))
      \/ (exists e, fst (process_pdf W path dpi (Some "") s) = Raise e))
  /\ (forall doc,
        fitz_open W path = Ok doc ->
        all_pages_ok W doc dpi ->
        exists texts,
          length texts = page_count doc
          /\ (forall i, i < page_count doc ->
                        page_text W doc dpi i = Ok (nth i texts ""))
          /\ fst (process_pdf W path dpi (Some "") s) = Ok (Some texts)).
Proof.
  split; [reflexivity|].
  destruct (process_pdf_falsy W path dpi (Some "") s eq_refl) as [Hdisk Hend].
  split; [exact Hdisk|]. split; [exact Hend|].
  intros doc Hopen Hall.
  destruct (all_ok_texts_of W doc dpi Hall) as [texts Htexts].
  pose proof (texts_of_length W _ _ _ _ Htexts) as Hlen. rewrite length_seq in Hlen.
  exists texts. split; [exact Hlen|].
  split; [exact (texts_of_nth W doc dpi _ texts 0 Htexts)|].
  destruct (process_pdf_of_opened W path dpi (Some "") s doc Hopen) as (Hr & _).
  rewrite Hr.
  now destruct (process_pdf_opened_returns W doc dpi (Some "")
                  (emit INFO ("Starting PDF processing for: " +:+ path) s)
                  texts Htexts eq_refl) as (? & _).
Qed.

(** C2, as the code has it. When a page of the opened document is the
    first on which rendering or recognition raises, [process_pdf] ends
    the run by raising that very exception, unchanged: the caller gets
    the originating cause, and nothing is added to it. *)
Theorem process_pdf_reraises_cause (W : World) (path : string) (dpi : Z)
    (out : option string) (s : Sys) (doc : Document) (i : nat) (e : PyExc) :
  fitz_open W path = Ok doc ->
  fails_at W doc dpi i e ->
  fst (process_pdf W path dpi out s) = Raise e.
Proof.
  intros Hopen Hfail.
  destruct (process_pdf_of_opened W path dpi out s doc Hopen) as (Hr & _ & _).
  rewrite Hr.
  now destruct (process_pdf_opened_fails W doc dpi out
                  (emit INFO ("Starting PDF processing for: " +:+ path) s) i e Hfail).
Qed.

Lemma demo_torn_fails_at :
  fails_at Demo.world Demo.torn 300 1 Demo.render_failed.
Proof.
  split; [simpl; lia|]. split; [|reflexivity].
  intros j Hj. destruct j as [|j]; [reflexivity | lia].
Qed.

Lemma demo_blank_first_fails_at :
  fails_at Demo.world Demo.blank_first 300 0 Demo.recognition_failed.
Proof.
  split; [simpl; lia|]. split; [|reflexivity].
  intros j Hj. lia.
Qed.

Lemma demo_blank_second_fails_at :
  fails_at Demo.world Demo.blank_second 300 1 Demo.recognition_failed.
Proof.
  split; [simpl; lia|]. split; [|reflexivity].
  intros j Hj. destruct j as [|j]; [reflexivity | lia].
Qed.

Lemma process_pdf_reraises_cause_witness :
  fitz_open Demo.world "torn.pdf" = Ok Demo.torn
  /\ fails_at Demo.world Demo.torn 300 1 Demo.render_failed
  /\ fst (process_pdf Demo.world "torn.pdf" 300 None Demo.sys0)
     = Raise Demo.render_failed.
Proof.
  split; [reflexivity|]. split; [exact demo_torn_fails_at|].
  exact (process_pdf_reraises_cause Demo.world "torn.pdf" 300 None Demo.sys0
           Demo.torn 1 Demo.render_failed eq_refl demo_torn_fails_at).
Defined.

(** C2, as stated, fails. Recognition raises the same exception on page
    0 of one document and on page 1 of another, and the two runs raise
    the same error: the failing page index cannot be read off the error
    [process_pdf] raises. *)
Lemma process_pdf_error_without_page_index :
  fst (process_pdf Demo.world "blank1.pdf" 300 None Demo.sys0)
  = Raise Demo.recognition_failed
  /\ fst (process_pdf Demo.world "blank2.pdf" 300 None Demo.sys0)
     = Raise Demo.recognition_failed
  /\ ~ (exists page_index_of : PyExc -> nat,
          forall W path dpi out s doc i e,
            fitz_open W path = Ok doc ->
            fails_at W doc dpi i e ->
            forall raised,
              fst (process_pdf W path dpi out s) = Raise raised ->
              page_index_of raised = i).
Proof.
  split; [reflexivity|]. split; [reflexivity|].
  intros [page_index_of Hcarries].
  pose proof (Hcarries Demo.world "blank1.pdf" 300%Z None Demo.sys0
                Demo.blank_first 0 Demo.recognition_failed eq_refl
                demo_blank_first_fails_at Demo.recognition_failed eq_refl) as H0.
  pose proof (Hcarries Demo.world "blank2.pdf" 300%Z None Demo.sys0
                Demo.blank_second 1 Demo.recognition_failed eq_refl
                demo_blank_second_fails_at Demo.recognition_failed eq_refl) as H1.
  congruence.
Qed.

(** C3. When the document is opened and rendering and recognition
    succeed on each of its [N] pages, the run ends with a list of [N]
    texts whose entry [i] is the text of page [i]: the list is returned
    when the output path is [None] or empty, and otherwise, the file
    accepting the write, the file holds the transcript of that list,
    which has [N] blocks. *)
Theorem process_pdf_one_text_per_page (W : World) (path : string) (dpi : Z)
    (out : option string) (s : Sys) (doc : Document) :
  fitz_open W path = Ok doc ->
  all_pages_ok W doc dpi ->
  exists texts,
    length texts = page_count doc
    /\ (forall i, i < page_count doc ->
                  page_text W doc dpi i = Ok (nth i texts ""))
    /\ match out with
       | Some p =>
           if bool_str p
           then open_w_error W p = None ->
                write_error W p (full_doc_text texts) = None ->
                fst (process_pdf W path dpi out s) = Ok None
                /\ files (snd (process_pdf W path dpi out s))
                   = <[p := spec_transcript texts]> (files s)
                /\ length (spec_blocks_from 0 texts) = page_count doc
           else fst (process_pdf W path dpi out s) = Ok (Some texts)
                /\ files (snd (process_pdf W path dpi out s)) = files s
       | None =>
           fst (process_pdf W path dpi out s) = Ok (Some texts)
           /\ files (snd (process_pdf W path dpi out s)) = files s
       end.
Proof.
  intros Hopen Hall.
  destruct (all_ok_texts_of W doc dpi Hall) as [texts Htexts].
  pose proof (texts_of_length W _ _ _ _ Htexts) as Hlen. rewrite length_seq in Hlen.
  exists texts. split; [exact Hlen|].
  split; [exact (texts_of_nth W doc dpi _ texts 0 Htexts)|].
  destruct (process_pdf_of_opened W path dpi out s doc Hopen) as (Hr & Hf & _).
  rewrite Hr, Hf. set (s1 := emit INFO _ s).
  assert (Hmem : bool_optional_str out = false ->
                 fst (process_pdf_opened W doc dpi out s1) = Ok (Some texts)
                 /\ files (snd (process_pdf_opened W doc dpi out s1)) = files s).
  { intros Hout.
    now destruct (process_pdf_opened_returns W doc dpi out s1 texts Htexts Hout)
      as (? & ? & _). }
  destruct out as [p|]; [|now apply Hmem].
  destruct (bool_str p) eqn:Hp; [|now apply Hmem].
  intros Ho Hw.
  destruct (process_pdf_opened_writes W doc dpi p s1 texts Htexts Hp) as [_ Hcase].
  rewrite Ho, Hw in Hcase. destruct Hcase as [Hres Hfiles].
  rewrite <- full_doc_text_spec, spec_blocks_from_length. auto.
Qed.

Lemma demo_hello_world_ok : all_pages_ok Demo.world Demo.hello_world 300.
Proof.
  intros i Hi. destruct i as [|[|i]]; [reflexivity | reflexivity | simpl in Hi; lia].
Qed.

Lemma process_pdf_one_text_per_page_witness :
  fitz_open Demo.world "hello.pdf" = Ok Demo.hello_world
  /\ all_pages_ok Demo.world Demo.hello_world 300
  /\ exists texts,
       length texts = 2
       /\ (forall i, i < 2 ->
                     page_text Demo.world Demo.hello_world 300 i = Ok (nth i texts ""))
       /\ fst (process_pdf Demo.world "hello.pdf" 300 (Some "out.txt") Demo.sys0)
          = Ok None
       /\ files (snd (process_pdf Demo.world "hello.pdf" 300 (Some "out.txt") Demo.sys0))
          = <["out.txt" := spec_transcript texts]> (files Demo.sys0).
Proof.
  split; [reflexivity|]. split; [exact demo_hello_world_ok|].
  destruct (process_pdf_one_text_per_page Demo.world "hello.pdf" 300
              (Some "out.txt") Demo.sys0 Demo.hello_world eq_refl demo_hello_world_ok)
    as (texts & Hlen & Hnth & Hrun).
  exists texts. split; [exact Hlen|]. split; [exact Hnth|].
  destruct (Hrun eq_refl eq_refl) as (Hres & Hfiles & _).
  split; assumption.
Defined.

(** A run that succeeds has opened the document and has got a text from
    each of its pages. *)
Lemma process_pdf_success_texts (W : World) (path : string) (dpi : Z)
    (out : option string) (s : Sys) (v : option (list string)) :
  fst (process_pdf W path dpi out s) = Ok v ->
  exists doc texts,
    fitz_open W path = Ok doc
    /\ texts_of W doc dpi (seq 0 (page_count doc)) texts.
Proof.
  intros Hok. destruct (fitz_open W path) as [doc|e] eqn:Hopen.
  - destruct (fails_or_texts W doc dpi) as [(i & e & Hfail) | (texts & Htexts)].
    + destruct (process_pdf_of_opened W path dpi out s doc Hopen) as (Hr & _).
      rewrite Hr in Hok.
      destruct (process_pdf_opened_fails W doc dpi out
                  (emit INFO ("Starting PDF processing for: " +:+ path) s) i e Hfail)
        as (Hr' & _).
      congruence.
    + exists doc, texts. split; [reflexivity | exact Htexts].
  - destruct (process_pdf_not_opened W path dpi out s e Hopen) as (Hr & _).
    congruence.
Qed.

(** The texts of the two pages of [Demo.hello_world]. *)
Lemma demo_hello_world_texts (W : World) (texts : list string) :
  process_page W = Demo.recognise ->
  frombytes_pixels W = Demo.frombytes ->
  length texts = 2 ->
  (forall i, i < 2 -> page_text W Demo.hello_world 300 i = Ok (nth i texts "")) ->
  texts = ["Hello"; " World "].
Proof.
  intros Hrec Hpil Hlen Hnth.
  destruct texts as [|a [|b [|c rest]]]; try discriminate.
  pose proof (Hnth 0 ltac:(lia)) as H0. pose proof (Hnth 1 ltac:(lia)) as H1.
  unfold page_text, _page_to_pil_image, Image_frombytes in H0, H1.
  rewrite Hrec, Hpil in H0, H1.
  injection H0 as <-. injection H1 as <-. reflexivity.
Qed.

(** C5, as the code has it. In a run that succeeds: with an output path
    that is not empty the formatted transcript of the page texts, label
    and trimmed text and blank line for each page in page order, is in
    the file at that path and [None] is returned; with no output path,
    or the empty one, the list of the page texts is returned and the
    disk is left as it was. *)
Theorem process_pdf_mode_selection (W : World) (path : string) (dpi : Z)
    (out : option string) (s : Sys) (v : option (list string)) :
  fst (process_pdf W path dpi out s) = Ok v ->
  exists doc texts,
    fitz_open W path = Ok doc
    /\ length texts = page_count doc
    /\ (forall i, i < page_count doc ->
                  page_text W doc dpi i = Ok (nth i texts ""))
    /\ match out with
       | Some p =>
           if bool_str p
           then v = None
                /\ files (snd (process_pdf W path dpi out s))
                   = <[p := spec_transcript texts]> (files s)
           else v = Some texts
                /\ files (snd (process_pdf W path dpi out s)) = files s
       | None =>
           v = Some texts
           /\ files (snd (process_pdf W path dpi out s)) = files s
       end.
Proof.
  intros Hok.
  destruct (process_pdf_success_texts W path dpi out s v Hok)
    as (doc & texts & Hopen & Htexts).
  destruct (process_pdf_of_opened W path dpi out s doc Hopen) as (Hr & Hf & _).
  rewrite Hr in Hok. rewrite Hf. clear Hr Hf. set (s1 := emit INFO _ s) in *.
  pose proof (texts_of_length W _ _ _ _ Htexts) as Hlen. rewrite length_seq in Hlen.
  exists doc, texts. split; [exact Hopen|]. split; [exact Hlen|].
  split; [exact (texts_of_nth W doc dpi _ texts 0 Htexts)|].
  assert (Hmem : bool_optional_str out = false ->
                 v = Some texts
                 /\ files (snd (process_pdf_opened W doc dpi out s1)) = files s).
  { intros Hout.
    destruct (process_pdf_opened_returns W doc dpi out s1 texts Htexts Hout)
      as (Hr & Hf & _).
    split; [congruence | exact Hf]. }
  destruct out as [p|]; [|now apply Hmem].
  destruct (bool_str p) eqn:Hp; [|now apply Hmem].
  destruct (process_pdf_opened_writes W doc dpi p s1 texts Htexts Hp) as [_ Hcase].
  destruct (open_w_error W p) as [e|]; [destruct Hcase; congruence|].
  destruct (write_error W p (full_doc_text texts)) as [[e written]|];
    destruct Hcase as [Hr Hf]; [congruence|].
  rewrite <- full_doc_text_spec. split; [congruence | exact Hf].
Qed.

Lemma process_pdf_mode_selection_witness :
  fst (process_pdf Demo.world "hello.pdf" 300 (Some "out.txt") Demo.sys0) = Ok None
  /\ files (snd (process_pdf Demo.world "hello.pdf" 300 (Some "out.txt") Demo.sys0))
     = <["out.txt" := "-- Page 1 --" +:+ LF +:+ "Hello" +:+ LF +:+ LF
                      +:+ "-- Page 2 --" +:+ LF +:+ "World" +:+ LF +:+ LF]>
         (files Demo.sys0).
Proof.
  split; [reflexivity|].
  destruct (process_pdf_mode_selection Demo.world "hello.pdf" 300 (Some "out.txt")
              Demo.sys0 None eq_refl)
    as (doc & texts & Hopen & Hlen & Hnth & _ & Hfiles).
  injection Hopen as <-.
  rewrite (demo_hello_world_texts Demo.world texts eq_refl eq_refl Hlen Hnth) in Hfiles.
  exact Hfiles.
Defined.

Lemma process_pdf_empty_output_path_witness :
  fitz_open Demo.world "hello.pdf" = Ok Demo.hello_world
  /\ all_pages_ok Demo.world Demo.hello_world 300
  /\ fst (process_pdf Demo.world "hello.pdf" 300 (Some "") Demo.sys0)
     = Ok (Some ["Hello"; " World "]).
Proof.
  split; [reflexivity|]. split; [exact demo_hello_world_ok|].
  destruct (proj2 (proj2 (proj2 (process_pdf_empty_output_path Demo.world "hello.pdf"
                                   300 Demo.sys0)))
              Demo.hello_world eq_refl demo_hello_world_ok)
    as (texts & Hlen & Hnth & Hres).
  rewrite (demo_hello_world_texts Demo.world texts eq_refl eq_refl Hlen Hnth) in Hres.
  exact Hres.
Defined.

(** C5, as stated, fails. With the empty string given as output path a
    run that succeeds returns the list of page texts and writes no
    file: no file is at that path afterwards and the disk is as
    before. *)
Lemma process_pdf_empty_path_returns_list :
  fst (process_pdf Demo.world "hello.pdf" 300 (Some "") Demo.sys0)
  = Ok (Some ["Hello"; " World "])
  /\ fst (process_pdf Demo.world "hello.pdf" 300 (Some "") Demo.sys0) <> Ok None
  /\ files (snd (process_pdf Demo.world "hello.pdf" 300 (Some "") Demo.sys0)) !! ""
     = None
  /\ files (snd (process_pdf Demo.world "hello.pdf" 300 (Some "") Demo.sys0))
     = files Demo.sys0.
Proof.
  split; [reflexivity|]. split; [discriminate|]. split; reflexivity.
Qed.

(** C7, as the code has it. When a page of the opened document is the
    first on which rendering or recognition raises, the run returns no
    list, only that exception, and the disk is as it was before the
    run: no file is created, none is changed. And when a run with an
    output path that is not empty succeeds, the file holds the formatted
    transcript of the texts of each page of the document. *)
Theorem process_pdf_all_or_nothing (W : World) (path : string) (dpi : Z)
    (out : option string) (s : Sys) (doc : Document) :
  fitz_open W path = Ok doc ->
  (forall i e,
      fails_at W doc dpi i e ->
      fst (process_pdf W path dpi out s) = Raise e
      /\ files (snd (process_pdf W path dpi out s)) = files s)
  /\ (forall v p,
        fst (process_pdf W path dpi out s) = Ok v ->
        out = Some p -> bool_str p = true ->
        exists texts,
          length texts = page_count doc
          /\ (forall i, i < page_count doc ->
                        page_text W doc dpi i = Ok (nth i texts ""))
          /\ files (snd (process_pdf W path dpi out s))
             = <[p := spec_transcript texts]> (files s)).
Proof.
  intros Hopen. split.
  - intros i e Hfail.
    destruct (process_pdf_of_opened W path dpi out s doc Hopen) as (Hr & Hf & _).
    rewrite Hr, Hf.
    now destruct (process_pdf_opened_fails W doc dpi out
                    (emit INFO ("Starting PDF processing for: " +:+ path) s)
                    i e Hfail) as (? & ? & _).
  - intros v p Hok -> Hp.
    destruct (process_pdf_success_texts W path dpi (Some p) s v Hok)
      as (doc' & texts & Hopen' & Htexts).
    assert (doc' = doc) as -> by congruence.
    pose proof (texts_of_length W _ _ _ _ Htexts) as Hlen. rewrite length_seq in Hlen.
    exists texts. split; [exact Hlen|].
    split; [exact (texts_of_nth W doc dpi _ texts 0 Htexts)|].
    destruct (process_pdf_of_opened W path dpi (Some p) s doc Hopen) as (Hr & Hf & _).
    rewrite Hr in Hok. rewrite Hf.
    destruct (process_pdf_opened_writes W doc dpi p
                (emit INFO ("Starting PDF processing for: " +:+ path) s)
                texts Htexts Hp) as [_ Hcase].
    destruct (open_w_error W p) as [e|]; [destruct Hcase; congruence|].
    destruct (write_error W p (full_doc_text texts)) as [[e written]|];
      destruct Hcase as [Hr' Hf']; [congruence|].
    rewrite <- full_doc_text_spec. exact Hf'.
Qed.

Lemma process_pdf_all_or_nothing_witness :
  fitz_open Demo.world "torn.pdf" = Ok Demo.torn
  /\ fails_at Demo.world Demo.torn 300 1 Demo.render_failed
  /\ fst (process_pdf Demo.world "torn.pdf" 300 (Some "out.txt") Demo.sys0)
     = Raise Demo.render_failed
  /\ files (snd (process_pdf Demo.world "torn.pdf" 300 (Some "out.txt") Demo.sys0))
     = files Demo.sys0
  /\ fitz_open Demo.world "hello.pdf" = Ok Demo.hello_world
  /\ fst (process_pdf Demo.world "hello.pdf" 300 (Some "out.txt") Demo.sys0) = Ok None
  /\ files (snd (process_pdf Demo.world "hello.pdf" 300 (Some "out.txt") Demo.sys0))
     = <["out.txt" := "-- Page 1 --" +:+ LF +:+ "Hello" +:+ LF +:+ LF
                      +:+ "-- Page 2 --" +:+ LF +:+ "World" +:+ LF +:+ LF]>
         (files Demo.sys0).
Proof.
  split; [reflexivity|]. split; [exact demo_torn_fails_at|].
  destruct (proj1 (process_pdf_all_or_nothing Demo.world "torn.pdf" 300
                     (Some "out.txt") Demo.sys0 Demo.torn eq_refl)
              1 Demo.render_failed demo_torn_fails_at) as [Hraise Hdisk].
  split; [exact Hraise|]. split; [exact Hdisk|].
  split; [reflexivity|]. split; [reflexivity|].
  destruct (proj2 (process_pdf_all_or_nothing Demo.world "hello.pdf" 300
                     (Some "out.txt") Demo.sys0 Demo.hello_world eq_refl)
              None "out.txt" eq_refl eq_refl eq_refl) as (texts & Hlen & Hnth & Hfiles).
  rewrite (demo_hello_world_texts Demo.world texts eq_refl eq_refl Hlen Hnth) in Hfiles.
  exact Hfiles.
Defined.

(** C7, as stated, fails in its last clause. Every page is recognised,
    the disk fills up while the output file is written, and the run
    raises: the output file, which was not there before the run, is
    there after it, with the first ten characters of the transcript. *)
Lemma process_pdf_failed_write_leaves_part :
  fst (process_pdf Faults.world "hello.pdf" 300 (Some "/full/out.txt") Demo.sys0)
  = Raise Faults.disk_full
  /\ files Demo.sys0 !! "/full/out.txt" = None
  /\ files (snd (process_pdf Faults.world "hello.pdf" 300 (Some "/full/out.txt")
                   Demo.sys0)) !! "/full/out.txt"
     = Some "-- Page 1 ".
Proof. split; [reflexivity|]. split; reflexivity. Qed.

(** C8. On an opened document without pages the run does not raise for
    want of pages: with no output path, or the empty one, it returns the
    empty list and leaves the disk alone; with an output path that is
    not empty, the file accepting the write, it returns [None] and the
    file holds the empty transcript, the empty string, in which there is
    no delimiter line. *)
Theorem process_pdf_zero_pages (W : World) (path : string) (dpi : Z)
    (out : option string) (s : Sys) (doc : Document) :
  fitz_open W path = Ok doc ->
  page_count doc = 0 ->
  full_doc_text [] = ""
  /\ match out with
     | Some p =>
         if bool_str p
         then open_w_error W p = None ->
              write_error W p "" = None ->
              fst (process_pdf W path dpi out s) = Ok None
              /\ files (snd (process_pdf W path dpi out s)) = <[p := ""]> (files s)
         else fst (process_pdf W path dpi out s) = Ok (Some [])
              /\ files (snd (process_pdf W path dpi out s)) = files s
     | None =>
         fst (process_pdf W path dpi out s) = Ok (Some [])
         /\ files (snd (process_pdf W path dpi out s)) = files s
     end.
Proof.
  intros Hopen Hzero. split; [reflexivity|].
  assert (Htexts : texts_of W doc dpi (seq 0 (page_count doc)) []).
  { rewrite Hzero. constructor. }
  destruct (process_pdf_of_opened W path dpi out s doc Hopen) as (Hr & Hf & _).
  rewrite Hr, Hf. set (s1 := emit INFO _ s).
  assert (Hmem : bool_optional_str out = false ->
                 fst (process_pdf_opened W doc dpi out s1) = Ok (Some [])
                 /\ files (snd (process_pdf_opened W doc dpi out s1)) = files s).
  { intros Hout.
    now destruct (process_pdf_opened_returns W doc dpi out s1 [] Htexts Hout)
      as (? & ? & _). }
  destruct out as [p|]; [|now apply Hmem].
  destruct (bool_str p) eqn:Hp; [|now apply Hmem].
  intros Ho Hw.
  destruct (process_pdf_opened_writes W doc dpi p s1 [] Htexts Hp) as [_ Hcase].
  change (full_doc_text []) with "" in Hcase.
  rewrite Ho, Hw in Hcase. exact Hcase.
Qed.

Lemma process_pdf_zero_pages_witness :
  fitz_open Demo.world "empty.pdf" = Ok Demo.no_pages
  /\ page_count Demo.no_pages = 0
  /\ fst (process_pdf Demo.world "empty.pdf" 300 (Some "out.txt") Demo.sys0) = Ok None
  /\ files (snd (process_pdf Demo.world "empty.pdf" 300 (Some "out.txt") Demo.sys0))
     = <["out.txt" := ""]> (files Demo.sys0)
  /\ fst (process_pdf Demo.world "empty.pdf" 300 None Demo.sys0) = Ok (Some [])
  /\ files (snd (process_pdf Demo.world "empty.pdf" 300 None Demo.sys0))
     = files Demo.sys0.
Proof.
  split; [reflexivity|]. split; [reflexivity|].
  destruct (proj2 (process_pdf_zero_pages Demo.world "empty.pdf" 300
                     (Some "out.txt") Demo.sys0 Demo.no_pages eq_refl eq_refl)
              eq_refl eq_refl) as [Hres Hfiles].
  split; [exact Hres|]. split; [exact Hfiles|].
  exact (proj2 (process_pdf_zero_pages Demo.world "empty.pdf" 300
                  None Demo.sys0 Demo.no_pages eq_refl eq_refl)).
Defined.

(** * Further properties of the module *)

Local Open Scope list_scope.

(** ** The renderer: what it raises *)

(** [_page_to_pil_image] raises [e] exactly when the conversion of
    [dpi] to a float overflows and [e] is that [OverflowError], or
    [get_pixmap] raises [e], or [get_pixmap] gives a pixmap and
    [Image.frombytes] raises [e] on it: it neither swallows nor replaces
    an exception of the libraries. *)
Theorem page_image_raises (W : World) (page : Page) (dpi : Z) (e : PyExc) :
  _page_to_pil_image W page dpi = Raise e
  <-> ((float_of_int dpi = Raise e /\ e = int_too_large)
       \/ exists zoom,
            int_truediv_float dpi float_72 = Ok zoom
            /\ (get_pixmap page (fitz_Matrix zoom zoom) false = Raise e
                \/ exists pix,
                     get_pixmap page (fitz_Matrix zoom zoom) false = Ok pix
                     /\ frombytes_pixels W (if pix_alpha pix then RGBA else RGB)
                          (pix_width pix, pix_height pix) (pix_samples pix)
                        = Raise e)).
Proof.
  split.
  - unfold _page_to_pil_image. intros Hraise.
    destruct (int_truediv_float dpi float_72) as [zoom|e0] eqn:Hzoom;
      cbn [and_then] in Hraise.
    + right. exists zoom. split; [reflexivity|].
      destruct (get_pixmap page (fitz_Matrix zoom zoom) false) as [pix|e1];
        cbn [and_then] in Hraise; [|left; congruence].
      right. exists pix. split; [reflexivity|].
      unfold Image_frombytes in Hraise.
      destruct (frombytes_pixels W _ _ _) as [pixels|e2];
        cbn [and_then] in Hraise; [discriminate | congruence].
    + left. injection Hraise as <-.
      pose proof (zoom_cases dpi) as Hz.
      destruct (float_of_int dpi) as [x|e']; [congruence|].
      destruct Hz as [-> Hz]. split; congruence.
  - unfold _page_to_pil_image.
    intros [[Hx _] | (zoom & Hzoom & [Hpix | (pix & Hpix & Hpil)])].
    + unfold int_truediv_float. now rewrite Hx.
    + rewrite Hzoom. cbn [and_then]. now rewrite Hpix.
    + rewrite Hzoom. cbn [and_then]. rewrite Hpix. cbn [and_then].
      unfold Image_frombytes. now rewrite Hpil.
Qed.

Lemma page_image_raises_witness :
  _page_to_pil_image Demo.world Faults.short_page 300
  = Raise Demo.not_enough_image_data
  /\ _page_to_pil_image Demo.world Demo.broken_page 300 = Raise Demo.render_failed
  /\ _page_to_pil_image Demo.world (Demo.page_of "Hello") (2 ^ 1024)
     = Raise int_too_large.
Proof.
  split; [|split].
  - apply (proj2 (page_image_raises Demo.world Faults.short_page 300
                    Demo.not_enough_image_data)).
    right. eexists. split; [reflexivity|]. right. eexists. split; reflexivity.
  - apply (proj2 (page_image_raises Demo.world Demo.broken_page 300
                    Demo.render_failed)).
    right. eexists. split; [reflexivity|]. left. reflexivity.
  - apply (proj2 (page_image_raises Demo.world (Demo.page_of "Hello") (2 ^ 1024)
                    int_too_large)).
    left. split; [vm_compute; reflexivity | reflexivity].
Defined.

(** ** The transcript: trimming, growth, ambiguity *)

Lemma lstrip_fixed (s : string) : head_is_space s = false -> lstrip s = s.
Proof. destruct s as [|c s]; simpl; [reflexivity|]. now intros ->. Qed.

Lemma rstrip_fixed (s : string) : last_is_space s = false -> rstrip s = s.
Proof.
  induction s as [|c s IH]; [reflexivity|].
  simpl. destruct s as [|d s].
  - simpl. now intros ->.
  - intros Hlast. now rewrite (IH Hlast).
Qed.

Lemma strip_fixed (s : string) :
  head_is_space s = false -> last_is_space s = false -> strip s = s.
Proof.
  intros Hh Hl. unfold strip. rewrite (lstrip_fixed s Hh). now apply rstrip_fixed.
Qed.

Lemma lstrip_all_space (s : string) : all_space s = true -> lstrip s = "".
Proof.
  induction s as [|c s IH]; [reflexivity|].
  simpl. intros H. apply andb_true_iff in H as [-> H]. now apply IH.
Qed.

Lemma last_is_space_append (s t : string) :
  t <> "" -> last_is_space (s +:+ t) = last_is_space t.
Proof.
  intros Ht. induction s as [|c s IH]; [reflexivity|].
  rewrite append_cons. simpl. rewrite IH.
  destruct (s +:+ t) eqn:E; [|reflexivity].
  destruct s; [rewrite append_nil_l in E; contradiction | discriminate].
Qed.

Lemma head_is_space_append (s t : string) :
  s <> "" -> head_is_space (s +:+ t) = head_is_space s.
Proof. destruct s; [contradiction | reflexivity]. Qed.

Lemma strip_idempotent (t : string) : strip (strip t) = strip t.
Proof.
  destruct (strip_spec t) as (l & r & _ & _ & _ & Hh & Hlast).
  now apply strip_fixed.
Qed.

Lemma strip_fixed_ends (t : string) :
  strip t = t -> head_is_space t = false /\ last_is_space t = false.
Proof.
  intros E. destruct (strip_spec t) as (l & r & _ & _ & _ & Hh & Hlast).
  rewrite E in Hh, Hlast. now split.
Qed.

(** How [strip] behaves on the three kinds of text: it is idempotent;
    it gives the empty string exactly on a text of whitespace only; it
    leaves a text as it is exactly when the text neither starts nor ends
    with whitespace. *)
Theorem strip_fixed_points (t : string) :
  strip (strip t) = strip t
  /\ (strip t = "" <-> all_space t = true)
  /\ (strip t = t <-> head_is_space t = false /\ last_is_space t = false).
Proof.
  destruct (strip_spec t) as (l & r & Ht & Hl & Hr & Hh & Hlast).
  split; [now apply strip_fixed|]. split; split.
  - intros E. rewrite Ht, E, !all_space_append, Hl, Hr. reflexivity.
  - intros H. unfold strip. now rewrite (lstrip_all_space t H).
  - intros E. rewrite E in Hh, Hlast. now split.
  - intros [H1 H2]. now apply strip_fixed.
Qed.

(** Whitespace around a page text does not reach the file: two lists
    of pages that agree page by page once trimmed have the same
    transcript, and so has a list and its trimmed copy. *)
Theorem transcript_ignores_outer_whitespace (pages pages' : list string) :
  Forall2 (fun t t' => strip t = strip t') pages pages' ->
  full_doc_text pages = full_doc_text pages'
  /\ full_doc_text (map strip pages) = full_doc_text pages.
Proof.
  intros Hsame.
  assert (Hblocks : forall p q, Forall2 (fun t t' => strip t = strip t') p q ->
                    forall i, spec_blocks_from i p = spec_blocks_from i q).
  { intros p q H. induction H as [|t t' p q Ht _ IH]; intros i; [reflexivity|].
    simpl. unfold spec_block. now rewrite Ht, IH. }
  split.
  - rewrite !full_doc_text_spec. unfold spec_transcript.
    now rewrite (Hblocks _ _ Hsame 0).
  - rewrite !full_doc_text_spec. unfold spec_transcript. f_equal.
    apply Hblocks. clear. induction pages as [|t pages IH]; simpl; constructor.
    + apply strip_idempotent.
    + exact IH.
Qed.

Lemma transcript_ignores_outer_whitespace_witness :
  full_doc_text ["  Hello" +:+ LF; "World "] = full_doc_text ["Hello"; " World"].
Proof.
  apply (transcript_ignores_outer_whitespace
           ["  Hello" +:+ LF; "World "] ["Hello"; " World"]).
  repeat constructor.
Defined.

Lemma spec_blocks_from_app (a b : list string) :
  forall i,
    spec_blocks_from i (a ++ b)
    = spec_blocks_from i a ++ spec_blocks_from (i + length a) b.
Proof.
  induction a as [|t a IH]; intros i; simpl.
  - now rewrite Nat.add_0_r.
  - now rewrite IH, Nat.add_succ_r.
Qed.

Lemma concat_blocks_app (x y : list string) :
  fold_right String.append "" (x ++ y)
  = fold_right String.append "" x +:+ fold_right String.append "" y.
Proof.
  induction x as [|b x IH]; simpl; [reflexivity|].
  now rewrite IH, append_assoc.
Qed.

(** Pages added at the end leave the text of the earlier pages as it
    is: the transcript of [a ++ b] is the transcript of [a] followed by
    the blocks of [b], numbered on from the pages of [a]. *)
Theorem transcript_grows_at_the_end (a b : list string) :
  full_doc_text (a ++ b)
  = full_doc_text a +:+ write_to_txt_loop (length a) b "".
Proof.
  unfold full_doc_text. rewrite !write_to_txt_loop_blocks, !append_nil_l.
  now rewrite spec_blocks_from_app, concat_blocks_app.
Qed.

(** The transcript is empty for no pages only: every page, even an
    empty one, leaves its label in the file. *)
Theorem transcript_empty_iff (pages : list string) :
  full_doc_text pages = "" <-> pages = [].
Proof.
  split; [|now intros ->].
  destruct pages as [|t pages]; [reflexivity|].
  rewrite full_doc_text_spec. unfold spec_transcript. simpl.
  unfold spec_block. rewrite !append_cons. discriminate.
Qed.

(** The transcript cannot be split back into its pages: a page whose
    text holds the blank line and a label of the next page prints as
    the two pages would. The texts here are trimmed and not empty. *)
Theorem transcript_label_in_text (a b : string) :
  a <> "" -> b <> "" -> strip a = a -> strip b = b ->
  full_doc_text [a +:+ LF +:+ LF +:+ "-- Page 2 --" +:+ LF +:+ b]
  = full_doc_text [a; b].
Proof.
  intros Ha Hb Hsa Hsb.
  destruct (strip_fixed_ends a Hsa) as [Hha _].
  destruct (strip_fixed_ends b Hsb) as [_ Hlb].
  assert (Hjoin : strip (a +:+ LF +:+ LF +:+ "-- Page 2 --" +:+ LF +:+ b)
                  = a +:+ LF +:+ LF +:+ "-- Page 2 --" +:+ LF +:+ b).
  { apply strip_fixed.
    - now rewrite head_is_space_append.
    - rewrite <- !append_assoc. now rewrite last_is_space_append. }
  rewrite !full_doc_text_spec. unfold spec_transcript. simpl.
  unfold spec_block. rewrite Hjoin, Hsa, Hsb. rewrite !append_assoc. reflexivity.
Qed.

Lemma transcript_label_in_text_witness :
  full_doc_text ["to be" +:+ LF +:+ LF +:+ "-- Page 2 --" +:+ LF +:+ "continued"]
  = full_doc_text ["to be"; "continued"].
Proof.
  apply (transcript_label_in_text "to be" "continued");
    [discriminate | discriminate | reflexivity | reflexivity].
Defined.

(** ** What a run logs at the level the module configures *)

Section LogFacts.

Variable W : World.

(** The loop leaves the state as it found it: its two logger calls are
    debug calls. *)
Lemma process_pdf_loop_state doc dpi indices :
  forall acc s, snd (process_pdf_loop W doc dpi indices acc s) = s.
Proof.
  induction indices as [|i rest IH]; intros acc s; [reflexivity|].
  rewrite process_pdf_loop_step.
  destruct (page_text W doc dpi i); [apply IH | reflexivity].
Qed.

(** [write_to_txt] logs its one record when the file is written, and
    nothing when [open] or [write] raised. *)
Lemma write_to_txt_log path pages s :
  log (snd (write_to_txt W path pages s))
  = log s ++ (if is_ok (fst (write_to_txt W path pages s))
              then [(INFO, "Output written to file " +:+ path +:+ ".")]
              else [])
  /\ exc_infos (snd (write_to_txt W path pages s)) = exc_infos s.
Proof.
  unfold write_to_txt, bind, open_w, file_write, logger_info.
  destruct (open_w_error W path); [simpl; now rewrite app_nil_r|].
  destruct (write_error W path (full_doc_text pages)) as [[e written]|]; simpl;
    [now rewrite app_nil_r | split; reflexivity].
Qed.

(** Around an opened document the [except] clause adds its record, with
    the exception attached, to what the [try] block logged; [finally]
    logs nothing. *)
Lemma process_pdf_of_opened_log path dpi out s doc :
  fitz_open W path = Ok doc ->
  let body :=
    process_pdf_opened W doc dpi out
      (emit INFO ("Starting PDF processing for: " +:+ path) s) in
  log (snd (process_pdf W path dpi out s))
  = log (snd body)
    ++ match fst body with
       | Raise e => except_records e
       | Ok _ => []
       end
  /\ exc_infos (snd (process_pdf W path dpi out s))
     = exc_infos (snd body)
       ++ match fst body with
          | Raise e => if exc_is_Exception e then [e] else []
          | Ok _ => []
          end.
Proof.
  intros Hopen body. unfold process_pdf, process_pdf_try. rewrite Hopen.
  fold body. destruct body as [[v|e] s1]; simpl; [now rewrite !app_nil_r|].
  unfold except_records. destruct (exc_is_Exception e); simpl;
    [split; reflexivity | now rewrite !app_nil_r].
Qed.

(** The log of the [try] block on an opened document, when a page
    raises: the page count, and nothing of the pages. *)
Lemma process_pdf_opened_fails_log doc dpi out s i e :
  fails_at W doc dpi i e ->
  log (snd (process_pdf_opened W doc dpi out s))
  = log s
    ++ [(INFO, "Opened PDF with " +:+ str_of_int (page_count doc) +:+ " page(s)")]
  /\ exc_infos (snd (process_pdf_opened W doc dpi out s)) = exc_infos s.
Proof.
  intros Hfail. unfold process_pdf_opened, bind, logger_info. cbv beta.
  set (s1 := emit INFO _ s).
  pose proof (process_pdf_loop_fails_at W doc dpi i e [] s1 Hfail) as Hr.
  pose proof (process_pdf_loop_state doc dpi (seq 0 (page_count doc)) [] s1) as Hs.
  destruct (process_pdf_loop W doc dpi (seq 0 (page_count doc)) [] s1) as [r s2].
  simpl in Hr, Hs. subst r s2. split; reflexivity.
Qed.

(** The log of the [try] block on an opened document, when every page
    gives a text: the page count, then the record of [write_to_txt]
    when it was called and wrote the file. *)
Lemma process_pdf_opened_texts_log doc dpi out s texts :
  texts_of W doc dpi (seq 0 (page_count doc)) texts ->
  log (snd (process_pdf_opened W doc dpi out s))
  = log s
    ++ [(INFO, "Opened PDF with " +:+ str_of_int (page_count doc) +:+ " page(s)")]
    ++ match out with
       | Some p =>
           if bool_str p && is_ok (fst (process_pdf_opened W doc dpi out s))
           then [(INFO, "Output written to file " +:+ p +:+ ".")]
           else []
       | None => []
       end
  /\ exc_infos (snd (process_pdf_opened W doc dpi out s)) = exc_infos s.
Proof.
  intros Htexts. unfold process_pdf_opened, bind, logger_info, ret. cbv beta.
  set (s1 := emit INFO _ s).
  pose proof (process_pdf_loop_ok W doc dpi _ texts [] s1 Htexts) as Hr.
  pose proof (process_pdf_loop_state doc dpi (seq 0 (page_count doc)) [] s1) as Hs.
  destruct (process_pdf_loop W doc dpi (seq 0 (page_count doc)) [] s1) as [r s2].
  simpl in Hr, Hs. subst r s2. simpl app.
  destruct out as [p|]; [|simpl; split; reflexivity].
  destruct (bool_str p); [|simpl; split; reflexivity].
  destruct (write_to_txt_log p texts s1) as [Hw Hx].
  destruct (write_to_txt W p texts s1) as [[[]|e] s3]; simpl in Hw, Hx |- *;
    rewrite Hw, Hx; simpl; rewrite <- ?app_assoc, ?app_nil_r; split; reflexivity.
Qed.

End LogFacts.

(** ** Runs that raise *)

(** When [fitz.open] raises, [process_pdf] raises the same exception;
    no file is touched, [close] is not called (there is no document),
    and the log gets the starting record and the record of the [except]
    clause. *)
Theorem process_pdf_open_raises (W : World) (path : string) (dpi : Z)
    (out : option string) (s : Sys) (e : PyExc) :
  fitz_open W path = Raise e ->
  fst (process_pdf W path dpi out s) = Raise e
  /\ files (snd (process_pdf W path dpi out s)) = files s
  /\ close_calls (snd (process_pdf W path dpi out s)) = close_calls s
  /\ log (snd (process_pdf W path dpi out s))
     = log s
       ++ (INFO, "Starting PDF processing for: " +:+ path) :: except_records e.
Proof.
  intros Hopen. unfold process_pdf, process_pdf_try, except_records.
  rewrite Hopen. destruct (exc_is_Exception e); simpl;
    repeat split; try reflexivity; now rewrite <- app_assoc.
Qed.

Lemma process_pdf_open_raises_witness :
  fitz_open Demo.world "missing.pdf" = Raise Demo.file_not_found
  /\ fst (process_pdf Demo.world "missing.pdf" 300 (Some "out.txt") Demo.sys0)
     = Raise Demo.file_not_found
  /\ files (snd (process_pdf Demo.world "missing.pdf" 300 (Some "out.txt") Demo.sys0))
     = files Demo.sys0
  /\ close_calls
       (snd (process_pdf Demo.world "missing.pdf" 300 (Some "out.txt") Demo.sys0))
     = 0
  /\ log (snd (process_pdf Demo.world "missing.pdf" 300 (Some "out.txt") Demo.sys0))
     = [ (INFO, "Starting PDF processing for: missing.pdf");
         (ERROR, "Failed to process PDF: no such file") ].
Proof.
  split; [reflexivity|].
  exact (process_pdf_open_raises Demo.world "missing.pdf" 300 (Some "out.txt")
           Demo.sys0 Demo.file_not_found eq_refl).
Defined.

(** When a page is the first to raise, the records the run produces are
    the starting record, the page count and, for an exception that
    derives from [Exception], one error record whose message is
    [Failed to process PDF: ] followed by [str(e)] and which carries the
    exception; for another exception there is no error record. The
    records do not tell which page raised. *)
Theorem process_pdf_page_failure_log (W : World) (path : string) (dpi : Z)
    (out : option string) (s : Sys) (doc : Document) (i : nat) (e : PyExc) :
  fitz_open W path = Ok doc ->
  fails_at W doc dpi i e ->
  log (snd (process_pdf W path dpi out s))
  = log s
    ++ [ (INFO, "Starting PDF processing for: " +:+ path);
         (INFO, "Opened PDF with " +:+ str_of_int (page_count doc) +:+ " page(s)") ]
    ++ except_records e
  /\ exc_infos (snd (process_pdf W path dpi out s))
     = exc_infos s ++ (if exc_is_Exception e then [e] else []).
Proof.
  intros Hopen Hfail.
  destruct (process_pdf_of_opened_log W path dpi out s doc Hopen) as [Hlog Hexc].
  destruct (process_pdf_opened_fails W doc dpi out
              (emit INFO ("Starting PDF processing for: " +:+ path) s) i e Hfail)
    as (Hr & _).
  destruct (process_pdf_opened_fails_log W doc dpi out
              (emit INFO ("Starting PDF processing for: " +:+ path) s) i e Hfail)
    as [Hlog' Hexc'].
  rewrite Hlog, Hexc, Hr, Hlog', Hexc'. simpl.
  rewrite <- !app_assoc. split; reflexivity.
Qed.

Lemma faults_blank_second_fails_at :
  fails_at Faults.world Demo.blank_second 300 1 Faults.keyboard_interrupt.
Proof.
  split; [simpl; lia|]. split; [|reflexivity].
  intros j Hj. destruct j as [|j]; [reflexivity | lia].
Qed.

Lemma process_pdf_page_failure_log_witness :
  log (snd (process_pdf Demo.world "torn.pdf" 300 None Demo.sys0))
  = [ (INFO, "Starting PDF processing for: torn.pdf");
      (INFO, "Opened PDF with 3 page(s)");
      (ERROR, "Failed to process PDF: cannot render page") ]
  /\ exc_infos (snd (process_pdf Demo.world "torn.pdf" 300 None Demo.sys0))
     = [ Demo.render_failed ]
  /\ log (snd (process_pdf Faults.world "blank2.pdf" 300 None Demo.sys0))
     = [ (INFO, "Starting PDF processing for: blank2.pdf");
         (INFO, "Opened PDF with 2 page(s)") ]
  /\ exc_infos (snd (process_pdf Faults.world "blank2.pdf" 300 None Demo.sys0)) = [].
Proof.
  destruct (process_pdf_page_failure_log Demo.world "torn.pdf" 300 None Demo.sys0
              Demo.torn 1 Demo.render_failed eq_refl demo_torn_fails_at)
    as [Hlog Hexc].
  destruct (process_pdf_page_failure_log Faults.world "blank2.pdf" 300 None Demo.sys0
              Demo.blank_second 1 Faults.keyboard_interrupt eq_refl
              faults_blank_second_fails_at)
    as [Hlog' Hexc'].
  split; [exact Hlog|]. split; [exact Hexc|]. split; [exact Hlog' | exact Hexc'].
Defined.

(** When every page was recognised and [open] or the write raises on
    the output file, the run raises that exception and the texts are
    lost to the caller. The disk is as before when [open] raised; when
    the write raised, the output file holds the part of the transcript
    written by then, in place of what it held. The log has the record
    of the [except] clause and no record of a written file. *)
Theorem process_pdf_write_raises (W : World) (path : string) (dpi : Z)
    (p : string) (s : Sys) (doc : Document) (texts : list string) :
  fitz_open W path = Ok doc ->
  texts_of W doc dpi (seq 0 (page_count doc)) texts ->
  bool_str p = true ->
  (forall e,
      open_w_error W p = Some e ->
      fst (process_pdf W path dpi (Some p) s) = Raise e
      /\ files (snd (process_pdf W path dpi (Some p) s)) = files s
      /\ log (snd (process_pdf W path dpi (Some p) s))
         = log s
           ++ [ (INFO, "Starting PDF processing for: " +:+ path);
                (INFO, "Opened PDF with " +:+ str_of_int (page_count doc)
                       +:+ " page(s)") ]
           ++ except_records e)
  /\ (forall e written,
        open_w_error W p = None ->
        write_error W p (spec_transcript texts) = Some (e, written) ->
        fst (process_pdf W path dpi (Some p) s) = Raise e
        /\ files (snd (process_pdf W path dpi (Some p) s))
           = <[p := written]> (files s)
        /\ log (snd (process_pdf W path dpi (Some p) s))
           = log s
             ++ [ (INFO, "Starting PDF processing for: " +:+ path);
                  (INFO, "Opened PDF with " +:+ str_of_int (page_count doc)
                         +:+ " page(s)") ]
             ++ except_records e).
Proof.
  intros Hopen Htexts Hp.
  destruct (process_pdf_of_opened W path dpi (Some p) s doc Hopen) as (Hr & Hf & _).
  destruct (process_pdf_of_opened_log W path dpi (Some p) s doc Hopen) as [Hlog _].
  rewrite Hlog, Hr, Hf. clear Hlog Hr Hf.
  set (s1 := emit INFO _ s).
  destruct (process_pdf_opened_writes W doc dpi p s1 texts Htexts Hp) as [_ Hcase].
  destruct (process_pdf_opened_texts_log W doc dpi (Some p) s1 texts Htexts)
    as [Hlog _].
  rewrite Hlog, Hp. clear Hlog. rewrite <- full_doc_text_spec.
  split.
  - intros e Ho. rewrite Ho in Hcase. destruct Hcase as [Hres Hfiles].
    rewrite Hres, Hfiles. simpl. rewrite ?app_nil_r, <- ?app_assoc.
    repeat split; reflexivity.
  - intros e written Ho Hw. rewrite Ho, Hw in Hcase. destruct Hcase as [Hres Hfiles].
    rewrite Hres, Hfiles. simpl. rewrite ?app_nil_r, <- ?app_assoc.
    repeat split; reflexivity.
Qed.

Lemma faults_hello_world_texts :
  texts_of Faults.world Demo.hello_world 300 (seq 0 (page_count Demo.hello_world))
    ["Hello"; " World "].
Proof. repeat constructor. Qed.

Lemma process_pdf_write_raises_witness :
  fst (process_pdf Faults.world "hello.pdf" 300 (Some "/full/out.txt") Demo.sys0)
  = Raise Faults.disk_full
  /\ files (snd (process_pdf Faults.world "hello.pdf" 300 (Some "/full/out.txt")
                   Demo.sys0))
     = <["/full/out.txt" := "-- Page 1 "]> (files Demo.sys0)
  /\ fst (process_pdf Faults.world "hello.pdf" 300 (Some "/readonly/out.txt") Demo.sys0)
     = Raise Demo.permission_denied
  /\ files (snd (process_pdf Faults.world "hello.pdf" 300 (Some "/readonly/out.txt")
                   Demo.sys0))
     = files Demo.sys0.
Proof.
  destruct (proj2 (process_pdf_write_raises Faults.world "hello.pdf" 300
                     "/full/out.txt" Demo.sys0 Demo.hello_world ["Hello"; " World "]
                     eq_refl faults_hello_world_texts eq_refl)
              Faults.disk_full "-- Page 1 " eq_refl eq_refl) as (Hres & Hfiles & _).
  destruct (proj1 (process_pdf_write_raises Faults.world "hello.pdf" 300
                     "/readonly/out.txt" Demo.sys0 Demo.hello_world
                     ["Hello"; " World "] eq_refl faults_hello_world_texts eq_refl)
              Demo.permission_denied eq_refl) as (Hres' & Hfiles' & _).
  split; [exact Hres|]. split; [exact Hfiles|]. split; [exact Hres' | exact Hfiles'].
Defined.

(** ** Runs that succeed, and what any run does to the disk *)

(** The records a run that succeeds produces: the starting record, the
    page count, then the record of the written file when an output path
    that is not empty was given; no error record, no exception
    attached, and nothing for the single pages. *)
Theorem process_pdf_success_log (W : World) (path : string) (dpi : Z)
    (out : option string) (s : Sys) (v : option (list string)) :
  fst (process_pdf W path dpi out s) = Ok v ->
  exists doc,
    fitz_open W path = Ok doc
    /\ log (snd (process_pdf W path dpi out s))
       = log s
         ++ [ (INFO, "Starting PDF processing for: " +:+ path);
              (INFO, "Opened PDF with " +:+ str_of_int (page_count doc)
                     +:+ " page(s)") ]
         ++ match out with
            | Some p =>
                if bool_str p
                then [ (INFO, "Output written to file " +:+ p +:+ ".") ]
                else []
            | None => []
            end
    /\ exc_infos (snd (process_pdf W path dpi out s)) = exc_infos s.
Proof.
  intros Hok.
  destruct (process_pdf_success_texts W path dpi out s v Hok)
    as (doc & texts & Hopen & Htexts).
  exists doc. split; [exact Hopen|].
  destruct (process_pdf_of_opened W path dpi out s doc Hopen) as (Hr & _).
  rewrite Hr in Hok.
  destruct (process_pdf_of_opened_log W path dpi out s doc Hopen) as [Hlog Hexc].
  destruct (process_pdf_opened_texts_log W doc dpi out
              (emit INFO ("Starting PDF processing for: " +:+ path) s) texts Htexts)
    as [Hlog' Hexc'].
  rewrite Hlog, Hexc, Hok, Hlog', Hexc', Hok, !app_nil_r.
  destruct out as [p|]; [destruct (bool_str p)|]; simpl;
    rewrite <- ?app_assoc; split; reflexivity.
Qed.

Lemma process_pdf_success_log_witness :
  fst (process_pdf Demo.world "hello.pdf" 300 (Some "out.txt") Demo.sys0) = Ok None
  /\ log (snd (process_pdf Demo.world "hello.pdf" 300 (Some "out.txt") Demo.sys0))
     = [ (INFO, "Starting PDF processing for: hello.pdf");
         (INFO, "Opened PDF with 2 page(s)");
         (INFO, "Output written to file out.txt.") ]
  /\ exc_infos (snd (process_pdf Demo.world "hello.pdf" 300 (Some "out.txt")
                       Demo.sys0)) = [].
Proof.
  split; [reflexivity|].
  destruct (process_pdf_success_log Demo.world "hello.pdf" 300 (Some "out.txt")
              Demo.sys0 None eq_refl) as (doc & Hopen & Hlog & Hexc).
  injection Hopen as <-. split; [exact Hlog | exact Hexc].
Defined.

(** The outcome of a run does not depend on the state it starts from,
    and what it does to the disk is nothing, or one assignment to the
    file at the output path. *)
Lemma process_pdf_effect (W : World) (path : string) (dpi : Z)
    (out : option string) :
  exists (r : Outcome (option (list string)))
         (upd : gmap string string -> gmap string string),
    (forall s, fst (process_pdf W path dpi out s) = r
               /\ files (snd (process_pdf W path dpi out s)) = upd (files s))
    /\ (upd = (fun m => m)
        \/ exists p t, out = Some p /\ bool_str p = true
                       /\ upd = (fun m => <[p := t]> m)).
Proof.
  destruct (fitz_open W path) as [doc|e] eqn:Hopen.
  2:{ exists (Raise e), (fun m => m). split; [|now left].
      intros s. now destruct (process_pdf_not_opened W path dpi out s e Hopen)
        as (? & ? & _). }
  assert (Hwrap : forall s r upd,
            fst (process_pdf_opened W doc dpi out
                   (emit INFO ("Starting PDF processing for: " +:+ path) s)) = r ->
            files (snd (process_pdf_opened W doc dpi out
                          (emit INFO ("Starting PDF processing for: " +:+ path) s)))
            = upd (files s) ->
            fst (process_pdf W path dpi out s) = r
            /\ files (snd (process_pdf W path dpi out s)) = upd (files s)).
  { intros s r upd Hr Hf.
    destruct (process_pdf_of_opened W path dpi out s doc Hopen) as (Hr' & Hf' & _).
    split; congruence. }
  destruct (fails_or_texts W doc dpi) as [(i & e & Hfail) | (texts & Htexts)].
  { exists (Raise e), (fun m => m). split; [|now left].
    intros s. apply (Hwrap s (Raise e) (fun m => m));
      now destruct (process_pdf_opened_fails W doc dpi out
                      (emit INFO ("Starting PDF processing for: " +:+ path) s)
                      i e Hfail) as (? & ? & _). }
  destruct (bool_optional_str out) eqn:Hout.
  2:{ exists (Ok (Some texts)), (fun m => m). split; [|now left].
      intros s. apply (Hwrap s (Ok (Some texts)) (fun m => m));
        now destruct (process_pdf_opened_returns W doc dpi out
                        (emit INFO ("Starting PDF processing for: " +:+ path) s)
                        texts Htexts Hout) as (? & ? & _). }
  destruct out as [p|]; [|discriminate]. simpl in Hout.
  pose proof (fun s => proj2 (process_pdf_opened_writes W doc dpi p
                (emit INFO ("Starting PDF processing for: " +:+ path) s)
                texts Htexts Hout)) as Hcase.
  destruct (open_w_error W p) as [e|].
  { exists (Raise e), (fun m => m). split; [|now left].
    intros s. apply (Hwrap s (Raise e) (fun m => m)); now destruct (Hcase s). }
  destruct (write_error W p (full_doc_text texts)) as [[e written]|].
  - exists (Raise e), (fun m => <[p := written]> m). split; [|right; eauto].
    intros s. apply (Hwrap s (Raise e) (fun m => <[p := written]> m));
      now destruct (Hcase s).
  - exists (Ok None), (fun m => <[p := full_doc_text texts]> m).
    split; [|right; eauto].
    intros s. apply (Hwrap s (Ok None) (fun m => <[p := full_doc_text texts]> m));
      now destruct (Hcase s).
Qed.

(** Whatever the run does, a file that is not the output file is after
    the run what it was before: present with the same content, or
    absent. *)
Theorem process_pdf_other_files (W : World) (path : string) (dpi : Z)
    (out : option string) (s : Sys) (q : string) :
  out <> Some q ->
  files (snd (process_pdf W path dpi out s)) !! q = files s !! q.
Proof.
  intros Hq.
  destruct (process_pdf_effect W path dpi out)
    as (r & upd & Hrun & [-> | (p & t & -> & _ & ->)]);
    destruct (Hrun s) as [_ Hf]; rewrite Hf; [reflexivity|].
  apply lookup_insert_ne. congruence.
Qed.

Lemma process_pdf_other_files_witness :
  files (snd (process_pdf Demo.world "hello.pdf" 300 (Some "out.txt") Demo.sys0))
    !! "notes.txt"
  = Some "keep".
Proof.
  exact (process_pdf_other_files Demo.world "hello.pdf" 300 (Some "out.txt")
           Demo.sys0 "notes.txt" ltac:(discriminate)).
Defined.

(** Writing to a file is returning the list and then calling
    [write_to_txt] on it: when the call without output path returns
    [texts], the call with an output path that is not empty ends as
    [write_to_txt] on that path and [texts] ends, with [None] in place
    of its result, and leaves the files [write_to_txt] leaves. *)
Theorem process_pdf_file_mode_composes (W : World) (path : string) (dpi : Z)
    (p : string) (s : Sys) (texts : list string) :
  bool_str p = true ->
  fst (process_pdf W path dpi None s) = Ok (Some texts) ->
  fst (process_pdf W path dpi (Some p) s)
  = match fst (write_to_txt W p texts (snd (process_pdf W path dpi None s))) with
    | Ok _ => Ok None
    | Raise e => Raise e
    end
  /\ files (snd (process_pdf W path dpi (Some p) s))
     = files (snd (write_to_txt W p texts (snd (process_pdf W path dpi None s)))).
Proof.
  intros Hp Hmem.
  destruct (process_pdf_success_texts W path dpi None s _ Hmem)
    as (doc & texts' & Hopen & Htexts).
  destruct (process_pdf_of_opened W path dpi None s doc Hopen) as (Hr & Hf & _).
  destruct (process_pdf_opened_returns W doc dpi None
              (emit INFO ("Starting PDF processing for: " +:+ path) s)
              texts' Htexts eq_refl) as (Hr' & Hf' & _).
  assert (texts' = texts) as -> by congruence.
  assert (Hdisk : files (snd (process_pdf W path dpi None s)) = files s)
    by (rewrite Hf; exact Hf').
  destruct (process_pdf_of_opened W path dpi (Some p) s doc Hopen) as (Hr2 & Hf2 & _).
  destruct (process_pdf_opened_writes W doc dpi p
              (emit INFO ("Starting PDF processing for: " +:+ path) s)
              texts Htexts Hp) as [_ Hcase].
  destruct (write_to_txt_cases W p texts (snd (process_pdf W path dpi None s)))
    as [_ Hw].
  rewrite Hr2, Hf2.
  destruct (open_w_error W p) as [e|];
    [|destruct (write_error W p (full_doc_text texts)) as [[e written]|]];
    destruct Hcase as [Hc1 Hc2], Hw as [Hw1 Hw2];
    rewrite Hc1, Hc2, Hw1, Hw2, Hdisk; split; reflexivity.
Qed.

Lemma process_pdf_file_mode_composes_witness :
  fst (process_pdf Demo.world "hello.pdf" 300 None Demo.sys0)
  = Ok (Some ["Hello"; " World "])
  /\ fst (process_pdf Demo.world "hello.pdf" 300 (Some "out.txt") Demo.sys0)
     = match fst (write_to_txt Demo.world "out.txt" ["Hello"; " World "]
                    (snd (process_pdf Demo.world "hello.pdf" 300 None Demo.sys0))) with
       | Ok _ => Ok None
       | Raise e => Raise e
       end
  /\ files (snd (process_pdf Demo.world "hello.pdf" 300 (Some "out.txt") Demo.sys0))
     = files (snd (write_to_txt Demo.world "out.txt" ["Hello"; " World "]
                     (snd (process_pdf Demo.world "hello.pdf" 300 None Demo.sys0)))).
Proof.
  split; [reflexivity|].
  exact (process_pdf_file_mode_composes Demo.world "hello.pdf" 300 "out.txt"
           Demo.sys0 ["Hello"; " World "] eq_refl eq_refl).
Defined.

(** ** The loop stops at the first page that raises *)

Section LoopStops.

Variable W : World.



End LoopStops.


